(** * Connection-lifecycle manager of [internal/database/driver.go]

    A shallow embedding of the PostgreSQL driver wrapper: the configuration
    loader, the connection-string builder, the validator and the
    [PostgreSQLDriver] methods ([Connect], [Close], [IsConnected],
    [Reconnect], [GetConnectionStats], accessors).

    Go values are modelled as follows.
    - [string] is [string]; [int] and [time.Duration] are [Z];
    - an [error] is its message, and the [nil] error is [None];
    - the process environment is a [gmap string string];
    - a [*sql.DB] is an index into the list of pools the process has
      opened so far; the [nil] pointer is [None];
    - everything outside the repository (the [.env] file, the database
      server, the logger) lives in a [World] that the code threads through
      a small state monad. *)

From Stdlib Require Import ZArith String Ascii List Lia DecimalString.
From Stdlib Require Import DecimalPos DecimalZ.
From stdpp Require Import base option strings list gmap.

Local Open Scope string_scope.
Local Open Scope list_scope.
Local Open Scope Z_scope.

(** ** Go run-time helpers *)

Definition error := string.

(** [int] is 64 bits wide on the platforms the module targets. *)
Definition intSize : Z := 64.
Definition maxInt : Z := 2 ^ (intSize - 1) - 1.
Definition minInt : Z := - 2 ^ (intSize - 1).

(** [strconv.Itoa] / the [%d] verb. *)
Definition Itoa (n : Z) : string := NilZero.string_of_int (Z.to_int n).

Definition dquote : string := String (ascii_of_nat 34) EmptyString.
Definition quote (s : string) : string := dquote +:+ s +:+ dquote.

Module strconv.

Definition digit (c : ascii) : option Z :=
  let n := Z.of_nat (nat_of_ascii c) in
  if (48 <=? n) && (n <=? 57) then Some (n - 48) else None.

Fixpoint digits (acc : Z) (s : string) : option Z :=
  match s with
  | EmptyString => Some acc
  | String c rest =>
      match digit c with
      | Some k => digits (acc * 10 + k) rest
      | None => None
      end
  end.

Definition syntaxError (s : string) : error :=
  "strconv.Atoi: parsing " +:+ quote s +:+ ": invalid syntax".
Definition rangeError (s : string) : error :=
  "strconv.Atoi: parsing " +:+ quote s +:+ ": value out of range".

(** [strconv.Atoi]: an optional sign, then one or more decimal digits;
    the value has to fit an [int]. *)
Definition Atoi (s : string) : Z + error :=
  match s with
  | EmptyString => inr (syntaxError s)
  | String c0 rest =>
      let neg := bool_decide (c0 = "-"%char) in
      let body := if bool_decide (c0 = "-"%char \/ c0 = "+"%char) then rest else s in
      match body with
      | EmptyString => inr (syntaxError s)
      | _ =>
          match digits 0 body with
          | None => inr (syntaxError s)
          | Some n =>
              let v := if neg then - n else n in
              if (minInt <=? v) && (v <=? maxInt) then inl v
              else inr (rangeError s)
          end
      end
  end.

End strconv.

(** Arguments of [fmt.Sprintf] as the driver uses them. *)
Inductive arg :=
| ArgS (s : string)
| ArgD (n : Z)
| ArgE (e : error).

Module fmt.

Definition typed (a : arg) : string :=
  match a with
  | ArgS s => "string=" +:+ s
  | ArgD n => "int=" +:+ Itoa n
  | ArgE e => "*errors.errorString=" +:+ e
  end.

(** One verb applied to one operand; a verb that does not fit the
    operand prints Go's [%!verb(type=value)] marker. *)
Definition verb (v : ascii) (a : arg) : string :=
  match a with
  | ArgS s =>
      if bool_decide (v = "s"%char \/ v = "v"%char) then s
      else "%!" +:+ String v ("(" +:+ typed a +:+ ")")
  | ArgD n =>
      if bool_decide (v = "d"%char \/ v = "v"%char) then Itoa n
      else "%!" +:+ String v ("(" +:+ typed a +:+ ")")
  | ArgE e =>
      if bool_decide (v = "s"%char \/ v = "v"%char \/ v = "w"%char) then e
      else "%!" +:+ String v ("(" +:+ typed a +:+ ")")
  end.

Fixpoint extra (args : list arg) : string :=
  match args with
  | [] => EmptyString
  | [a] => typed a
  | a :: rest => typed a +:+ ", " +:+ extra rest
  end.

Fixpoint Sprintf (format : string) (args : list arg) : string :=
  match format with
  | EmptyString =>
      match args with
      | [] => EmptyString
      | _ => "%!(EXTRA " +:+ extra args +:+ ")"
      end
  | String c rest =>
      if bool_decide (c = "%"%char) then
        match rest with
        | EmptyString => "%!(NOVERB)"
        | String v rest' =>
            if bool_decide (v = "%"%char) then String "%" (Sprintf rest' args)
            else
              match args with
              | [] => "%!" +:+ String v ("(MISSING)" +:+ Sprintf rest' [])
              | a :: args' => verb v a +:+ Sprintf rest' args'
              end
        end
      else String c (Sprintf rest args)
  end.

Definition Errorf (format : string) (args : list arg) : error :=
  Sprintf format args.

End fmt.

(** ** Data model *)

Record DatabaseConfig := {
  Host : string;
  Port : Z;
  User : string;
  Password : string;
  Database : string;
  SSLMode : string
}.

#[global] Instance DatabaseConfig_eq_dec : EqDecision DatabaseConfig.
Proof. solve_decision. Defined.

(** ** Connection string *)

Definition BuildConnectionString (c : DatabaseConfig) : string :=
  fmt.Sprintf
    "host=%s port=%d user=%s password=%s dbname=%s sslmode=%s"
    [ArgS (Host c); ArgD (Port c); ArgS (User c);
     ArgS (Password c); ArgS (Database c); ArgS (SSLMode c)].

(** ** Validation *)

Definition validSSLModes : list string :=
  ["disable"; "require"; "verify-ca"; "verify-full"].

(** The [for ... range] loop with its [break]. *)
Fixpoint scanModes (sslMode : string) (modes : list string) (validMode : bool) : bool :=
  match modes with
  | [] => validMode
  | mode :: rest =>
      if bool_decide (sslMode = mode) then true
      else scanModes sslMode rest validMode
  end.

Definition validateDatabaseConfig (config : DatabaseConfig) : option error :=
  if bool_decide (Host config = EmptyString) then
    Some (fmt.Errorf "host cannot be empty" [])
  else if (Port config <=? 0) || (Port config >? 65535) then
    Some (fmt.Errorf "port must be between 1 and 65535" [])
  else if bool_decide (User config = EmptyString) then
    Some (fmt.Errorf "user cannot be empty" [])
  else if bool_decide (Password config = EmptyString) then
    Some (fmt.Errorf "password cannot be empty" [])
  else if bool_decide (Database config = EmptyString) then
    Some (fmt.Errorf "database name cannot be empty" [])
  else
    let validMode := scanModes (SSLMode config) validSSLModes false in
    if negb validMode then
      Some (fmt.Errorf "invalid SSL mode: %s" [ArgS (SSLMode config)])
    else None.

(** ** The world outside the repository *)

(** A [*sql.DB]: the position of its pool in [pools]. *)
Definition Handle := nat.

Record DBStats := {
  MaxOpenConnections : Z;
  OpenConnections : Z;
  InUse : Z;
  Idle : Z;
  WaitCount : Z;
  WaitDuration : Z;
  MaxIdleClosed : Z;
  MaxIdleTimeClosed : Z;
  MaxLifetimeClosed : Z
}.

(** The zero value [sql.DBStats{}]. *)
Definition DBStats_zero : DBStats :=
  {| MaxOpenConnections := 0; OpenConnections := 0; InUse := 0; Idle := 0;
     WaitCount := 0; WaitDuration := 0; MaxIdleClosed := 0;
     MaxIdleTimeClosed := 0; MaxLifetimeClosed := 0 |}.

Record Pool := {
  dsn : string;
  closed : bool;
  maxOpen : Z;
  maxIdleCount : Z;
  maxLifetime : Z
}.

Inductive Event :=
| EvOpen (driverName dataSourceName : string)
| EvSetMaxOpenConns (h : Handle) (n : Z)
| EvSetMaxIdleConns (h : Handle) (n : Z)
| EvSetConnMaxLifetime (h : Handle) (d : Z)
| EvPing (h : Handle)
| EvClose (h : Handle)
| EvStats (h : Handle).

(** What the database server and the network answer, given the calls made
    so far. The driver never sees more of them than these answers. *)
Record Server := {
  open_err : list Event -> string -> option error;
  ping_err : list Event -> Handle -> option error;
  close_err : list Event -> Handle -> option error;
  counters : list Event -> Handle -> DBStats
}.

Record World := {
  environ : gmap string string;
  dotenv : option (gmap string string);
  server : Server;
  pools : list Pool;
  trace : list Event;
  logged : list string
}.

Definition M (A : Type) : Type := World -> A * World.

#[global] Instance M_ret : MRet M := fun A a w => (a, w).
#[global] Instance M_bind : MBind M :=
  fun A B f m w => let '(a, w') := m w in f a w'.

Definition emit (e : Event) : M unit := fun w =>
  (tt, {| environ := environ w; dotenv := dotenv w; server := server w;
          pools := pools w; trace := trace w ++ [e]; logged := logged w |}).

Definition with_pools (f : list Pool -> list Pool) : M unit := fun w =>
  (tt, {| environ := environ w; dotenv := dotenv w; server := server w;
          pools := f (pools w); trace := trace w; logged := logged w |}).

Definition ask {A} (q : Server -> list Event -> A) : M A := fun w =>
  (q (server w) (trace w), w).

Definition pool_at (h : Handle) : M (option Pool) := fun w => (pools w !! h, w).

Module os.
(** [os.Getenv]: the empty string when the variable is unset. *)
Definition Getenv (key : string) : M string := fun w =>
  (default EmptyString (environ w !! key), w).
End os.

Module godotenv.
(** [godotenv.Load()]: reads [.env]; variables already in the
    environment keep their value. *)
Definition Load : M (option error) := fun w =>
  match dotenv w with
  | None => (Some "open .env: no such file or directory", w)
  | Some file =>
      (None, {| environ := environ w ∪ file; dotenv := dotenv w;
                server := server w; pools := pools w; trace := trace w;
                logged := logged w |})
  end.
End godotenv.

Module log.
Definition Println (line : string) : M unit := fun w =>
  (tt, {| environ := environ w; dotenv := dotenv w; server := server w;
          pools := pools w; trace := trace w; logged := logged w ++ [line] |}).
Definition Printf (format : string) (args : list arg) : M unit :=
  Println (fmt.Sprintf format args).
End log.

Module time.
Definition Nanosecond : Z := 1.
Definition Second : Z := 1000000000 * Nanosecond.
Definition Minute : Z := 60 * Second.
End time.

Module sql.

Definition drivers : list string := ["postgres"].

Definition defaultMaxIdleConns : Z := 2.

Definition maxIdleConnsLocked (p : Pool) : Z :=
  let n := maxIdleCount p in
  if n =? 0 then defaultMaxIdleConns
  else if n <? 0 then 0
  else n.

Definition fresh (dataSourceName : string) : Pool :=
  {| dsn := dataSourceName; closed := false; maxOpen := 0;
     maxIdleCount := 0; maxLifetime := 0 |}.

Definition Open (driverName dataSourceName : string) : M (Handle + error) :=
  oe ← ask (fun s t => open_err s t dataSourceName);
  _ ← emit (EvOpen driverName dataSourceName);
  if bool_decide (driverName ∈ drivers) then
    match oe with
    | Some err => mret (inr err)
    | None =>
        h ← (fun w => (length (pools w), w));
        _ ← with_pools (fun ps => ps ++ [fresh dataSourceName]);
        mret (inl h)
    end
  else
    mret (inr (fmt.Errorf "sql: unknown driver %s (forgotten import?)"
                 [ArgS (quote driverName)])).

Definition setMaxIdle (n : Z) (p : Pool) : Pool :=
  let p1 := {| dsn := dsn p; closed := closed p; maxOpen := maxOpen p;
               maxIdleCount := (if n >? 0 then n else -1);
               maxLifetime := maxLifetime p |} in
  if (maxOpen p1 >? 0) && (maxIdleConnsLocked p1 >? maxOpen p1) then
    {| dsn := dsn p1; closed := closed p1; maxOpen := maxOpen p1;
       maxIdleCount := maxOpen p1; maxLifetime := maxLifetime p1 |}
  else p1.

Definition setMaxOpen (n : Z) (p : Pool) : Pool :=
  let p1 := {| dsn := dsn p; closed := closed p;
               maxOpen := (if n <? 0 then 0 else n);
               maxIdleCount := maxIdleCount p;
               maxLifetime := maxLifetime p |} in
  if (maxOpen p1 >? 0) && (maxIdleConnsLocked p1 >? maxOpen p1)
  then setMaxIdle n p1 else p1.

Definition setLifetime (d : Z) (p : Pool) : Pool :=
  {| dsn := dsn p; closed := closed p; maxOpen := maxOpen p;
     maxIdleCount := maxIdleCount p;
     maxLifetime := (if d <? 0 then 0 else d) |}.

Definition setClosed (p : Pool) : Pool :=
  {| dsn := dsn p; closed := true; maxOpen := maxOpen p;
     maxIdleCount := maxIdleCount p; maxLifetime := maxLifetime p |}.

Definition SetMaxOpenConns (db : Handle) (n : Z) : M unit :=
  _ ← emit (EvSetMaxOpenConns db n);
  with_pools (alter (setMaxOpen n) db).

Definition SetMaxIdleConns (db : Handle) (n : Z) : M unit :=
  _ ← emit (EvSetMaxIdleConns db n);
  with_pools (alter (setMaxIdle n) db).

Definition SetConnMaxLifetime (db : Handle) (d : Z) : M unit :=
  _ ← emit (EvSetConnMaxLifetime db d);
  with_pools (alter (setLifetime d) db).

Definition isOpen (p : option Pool) : bool :=
  match p with
  | Some q => negb (closed q)
  | None => false
  end.

(** [Ping] on a closed pool fails without reaching the server. *)
Definition Ping (db : Handle) : M (option error) :=
  p ← pool_at db;
  r ← ask (fun s t => ping_err s t db);
  _ ← emit (EvPing db);
  if isOpen p then mret r else mret (Some "sql: database is closed").

(** [Close] is idempotent; the pool is marked closed before its
    connections are released, so it is closed whatever they report. *)
Definition Close (db : Handle) : M (option error) :=
  p ← pool_at db;
  r ← ask (fun s t => close_err s t db);
  _ ← emit (EvClose db);
  if isOpen p then
    _ ← with_pools (alter setClosed db);
    mret r
  else mret None.

Definition Stats (db : Handle) : M DBStats :=
  p ← pool_at db;
  c ← ask (fun s t => counters s t db);
  _ ← emit (EvStats db);
  mret {| MaxOpenConnections := from_option maxOpen 0 p;
          OpenConnections := OpenConnections c; InUse := InUse c;
          Idle := Idle c; WaitCount := WaitCount c;
          WaitDuration := WaitDuration c;
          MaxIdleClosed := MaxIdleClosed c;
          MaxIdleTimeClosed := MaxIdleTimeClosed c;
          MaxLifetimeClosed := MaxLifetimeClosed c |}.

End sql.

(** ** Configuration loader *)

Definition LoadDatabaseConfig : M (DatabaseConfig + error) :=
  lerr ← godotenv.Load;
  _ ← match lerr with
      | Some err => log.Printf "Warning: .env file not found: %v" [ArgE err]
      | None => mret tt
      end;
  host ← os.Getenv "DB_HOST";
  let host := if bool_decide (host = EmptyString) then "localhost" else host in
  portStr ← os.Getenv "DB_PORT";
  let portStr := if bool_decide (portStr = EmptyString) then "5432" else portStr in
  match strconv.Atoi portStr with
  | inr err => mret (inr (fmt.Errorf "invalid port number: %v" [ArgE err]))
  | inl port =>
      user ← os.Getenv "DB_USER";
      if bool_decide (user = EmptyString) then
        mret (inr (fmt.Errorf "DB_USER environment variable is required" []))
      else
        password ← os.Getenv "DB_PASSWORD";
        if bool_decide (password = EmptyString) then
          mret (inr (fmt.Errorf "DB_PASSWORD environment variable is required" []))
        else
          database ← os.Getenv "DB_NAME";
          if bool_decide (database = EmptyString) then
            mret (inr (fmt.Errorf "DB_NAME environment variable is required" []))
          else
            sslMode ← os.Getenv "DB_SSL_MODE";
            let sslMode := if bool_decide (sslMode = EmptyString) then "require" else sslMode in
            mret (inl {| Host := host; Port := port; User := user;
                         Password := password; Database := database;
                         SSLMode := sslMode |})
  end.

(** ** The driver *)

Record PostgreSQLDriver := {
  config : DatabaseConfig;
  db : option Handle
}.

Definition NewPostgreSQLDriver : M (PostgreSQLDriver + error) :=
  r ← LoadDatabaseConfig;
  match r with
  | inr err =>
      mret (inr (fmt.Errorf "failed to load database configuration: %w" [ArgE err]))
  | inl config =>
      let driver := {| config := config; db := None |} in
      mret (inl driver)
  end.

Definition NewPostgreSQLDriverWithConfig (config : option DatabaseConfig)
  : PostgreSQLDriver + error :=
  match config with
  | None => inr (fmt.Errorf "database configuration cannot be nil" [])
  | Some config =>
      match validateDatabaseConfig config with
      | Some err =>
          inr (fmt.Errorf "invalid database configuration: %w" [ArgE err])
      | None =>
          let driver := {| config := config; db := None |} in
          inl driver
      end
  end.

Definition Connect (d : PostgreSQLDriver) : M (PostgreSQLDriver * option error) :=
  let connectionString := BuildConnectionString (config d) in
  r ← sql.Open "postgres" connectionString;
  match r with
  | inr err =>
      mret (d, Some (fmt.Errorf "failed to open database connection: %w" [ArgE err]))
  | inl db =>
      _ ← sql.SetMaxOpenConns db 25;
      _ ← sql.SetMaxIdleConns db 5;
      _ ← sql.SetConnMaxLifetime db (5 * time.Minute);
      perr ← sql.Ping db;
      match perr with
      | Some err =>
          _ ← sql.Close db;
          mret (d, Some (fmt.Errorf "failed to ping database: %w" [ArgE err]))
      | None =>
          let d := {| config := config d; db := Some db |} in
          _ ← log.Printf "Successfully connected to PostgreSQL database: %s"
                [ArgS (Database (config d))];
          mret (d, None)
      end
  end.

Definition GetDB (d : PostgreSQLDriver) : option Handle := db d.

Definition GetConfig (d : PostgreSQLDriver) : DatabaseConfig := config d.

Definition Close (d : PostgreSQLDriver) : M (option error) :=
  match db d with
  | Some h =>
      cerr ← sql.Close h;
      match cerr with
      | Some err =>
          mret (Some (fmt.Errorf "failed to close database connection: %w" [ArgE err]))
      | None =>
          _ ← log.Println "Database connection closed successfully";
          mret None
      end
  | None => mret None
  end.

Definition IsConnected (d : PostgreSQLDriver) : M bool :=
  match db d with
  | None => mret false
  | Some h =>
      perr ← sql.Ping h;
      match perr with
      | Some _ => mret false
      | None => mret true
      end
  end.

Definition Reconnect (d : PostgreSQLDriver) : M (PostgreSQLDriver * option error) :=
  _ ← match db d with
      | Some h => _ ← sql.Close h; mret tt
      | None => mret tt
      end;
  Connect d.

Definition GetConnectionStats (d : PostgreSQLDriver) : M DBStats :=
  match db d with
  | None => mret DBStats_zero
  | Some h => sql.Stats h
  end.

(** ** Callers ([example_usage.go]) *)

(** The deferred [driver.Close()] runs when the function returns, after
    the last statement of the body. *)
Definition ExampleUsage : M unit :=
  r ← NewPostgreSQLDriver;
  match r with
  | inr err => log.Printf "Failed to create driver: %v" [ArgE err]
  | inl driver =>
      '(driver, cerr) ← Connect driver;
      match cerr with
      | Some err => log.Printf "Failed to connect to database: %v" [ArgE err]
      | None =>
          b ← IsConnected driver;
          _ ← (if (b : bool)
               then log.Println "Successfully connected to database"
               else mret tt);
          let db := GetDB driver in
          _ ← match db with
              | Some _ => log.Println "Database connection is available"
              | None => mret tt
              end;
          stats ← GetConnectionStats driver;
          _ ← log.Printf "Open connections: %d" [ArgD (OpenConnections stats)];
          _ ← Close driver;
          mret tt
      end
  end.

Definition ExampleReconnection : M unit :=
  r ← NewPostgreSQLDriver;
  match r with
  | inr err => log.Printf "Failed to create driver: %v" [ArgE err]
  | inl driver =>
      '(driver, cerr) ← Connect driver;
      match cerr with
      | Some err => log.Printf "Failed to connect initially: %v" [ArgE err]
      | None =>
          _ ← log.Println "Simulating connection loss...";
          _ ← Close driver;
          _ ← log.Println "Attempting to reconnect...";
          '(driver, rerr) ← Reconnect driver;
          match rerr with
          | Some err => log.Printf "Failed to reconnect: %v" [ArgE err]
          | None =>
              _ ← log.Println "Successfully reconnected to database";
              _ ← Close driver;
              mret tt
          end
      end
  end.

(** ** Sequences of calls on one manager *)

Inductive Op :=
| OpConnect
| OpIsConnected
| OpReconnect
| OpClose
| OpGetDB
| OpGetConfig
| OpGetConnectionStats.

Inductive Outcome :=
| OutErr (e : option error)
| OutBool (b : bool)
| OutDB (h : option Handle)
| OutConfig (c : DatabaseConfig)
| OutStats (s : DBStats).

Definition call (o : Op) (d : PostgreSQLDriver) : M (PostgreSQLDriver * Outcome) :=
  match o with
  | OpConnect => '(d', e) ← Connect d; mret (d', OutErr e)
  | OpIsConnected => b ← IsConnected d; mret (d, OutBool b)
  | OpReconnect => '(d', e) ← Reconnect d; mret (d', OutErr e)
  | OpClose => e ← Close d; mret (d, OutErr e)
  | OpGetDB => mret (d, OutDB (GetDB d))
  | OpGetConfig => mret (d, OutConfig (GetConfig d))
  | OpGetConnectionStats => s ← GetConnectionStats d; mret (d, OutStats s)
  end.

Fixpoint calls (ops : list Op) (d : PostgreSQLDriver)
  : M (PostgreSQLDriver * list Outcome) :=
  match ops with
  | [] => mret (d, [])
  | o :: rest =>
      '(d1, r) ← call o d;
      '(d2, rs) ← calls rest d1;
      mret (d2, r :: rs)
  end.

(** A pool that has been opened and not closed since. *)
Definition live (w : World) (h : Handle) : bool := sql.isOpen (pools w !! h).

(** The manager's stored handle refers to a live pool. *)
Definition holds_live (d : PostgreSQLDriver) (w : World) : bool :=
  match db d with
  | Some h => live w h
  | None => false
  end.

(** A [Connect] or [Reconnect] call that returned [nil]. *)
Definition connected (o : Op) (r : Outcome) : bool :=
  match o, r with
  | OpConnect, OutErr None | OpReconnect, OutErr None => true
  | _, _ => false
  end.

Definition ever_connected (ops : list Op) (outs : list Outcome) : bool :=
  existsb (fun p => connected p.1 p.2) (zip ops outs).

(** [Connect] is only called while no live handle is stored. *)
Fixpoint connects_from_idle (ops : list Op) (d : PostgreSQLDriver) (w : World) : bool :=
  match ops with
  | [] => true
  | o :: rest =>
      (match o with
       | OpConnect => negb (holds_live d w)
       | _ => true
       end)
      && let '((d', _), w') := call o d w in connects_from_idle rest d' w'
  end.

(** ** Vocabulary of the specification *)

(** The specification's [ConnectionError]: an open failure or a ping
    failure reported by [Connect]. *)
Definition ConnectionError (e : error) : Prop :=
  exists cause,
    e = fmt.Errorf "failed to open database connection: %w" [ArgE cause]
    \/ e = fmt.Errorf "failed to ping database: %w" [ArgE cause].

(** The constraint table of the data model. *)
Definition meets_constraints (c : DatabaseConfig) : Prop :=
  Host c <> EmptyString /\ 1 <= Port c <= 65535 /\ User c <> EmptyString
  /\ Password c <> EmptyString /\ Database c <> EmptyString
  /\ (SSLMode c = "disable" \/ SSLMode c = "require"
      \/ SSLMode c = "verify-ca" \/ SSLMode c = "verify-full").

(** The settings [Load()] reads: the environment, completed by the
    override file when there is one. A setting is unset when its value is
    the empty string. *)
Definition settings (w : World) : gmap string string :=
  match dotenv w with
  | Some file => environ w ∪ file
  | None => environ w
  end.

Definition setting (w : World) (key : string) : string :=
  default EmptyString (settings w !! key).

(** The raw value parses as a base-10 integer. *)
Definition numeric (s : string) : Prop := exists n, strconv.Atoi s = inl n.

(** The specification's reading of [Reconnect]: close the existing handle
    if there is one, drop what the close reports, then run [Connect]. *)
Definition Reconnect_composed (d : PostgreSQLDriver)
  : M (PostgreSQLDriver * option error) := fun w =>
  let w1 := match db d with
            | Some h => (sql.Close h w).2
            | None => w
            end in
  Connect d w1.

(** What a caller can tell about the manager's connection: the stored
    handle, and whether the pool behind it is still open. *)
Definition manager_state (d : PostgreSQLDriver) (w : World)
  : option (Handle * bool) :=
  match db d with
  | Some h => Some (h, live w h)
  | None => None
  end.

(** The pool [Connect] leaves behind for the connection string [cs]. *)
Definition configured (cs : string) (isClosed : bool) : Pool :=
  {| dsn := cs; closed := isClosed; maxOpen := 25; maxIdleCount := 5;
     maxLifetime := 300000000000 |}.

(** A manager as one of the two constructors returns it. *)
Definition fresh_manager (d : PostgreSQLDriver) : Prop :=
  (exists oc, NewPostgreSQLDriverWithConfig oc = inl d)
  \/ (exists w, (NewPostgreSQLDriver w).1 = inl d).

(** Every pool opened since the manager was built (position [n] or
    later) that is still open is the one the manager stores. *)
Definition owns_only (n : nat) (d : PostgreSQLDriver) (w : World) : Prop :=
  (n <= length (pools w))%nat
  /\ forall k, (n <= k)%nat -> live w k = true -> db d = Some k.

(** The calls [Connect] makes on the handle [h] before it pings. *)
Definition setup_events (h : Handle) (cs : string) : list Event :=
  [EvOpen "postgres" cs; EvSetMaxOpenConns h 25; EvSetMaxIdleConns h 5;
   EvSetConnMaxLifetime h (5 * time.Minute)].

(** The manager [d] in the world [w], [n] pools after which it was built:
    it holds the config [c]; its handle, if any, is one of the pools
    opened since; each of those pools has the manager's connection string
    and limits. *)
Definition managed (n : nat) (c : DatabaseConfig) (d : PostgreSQLDriver)
    (w : World) : Prop :=
  config d = c
  /\ (n <= length (pools w))%nat
  /\ (forall h, db d = Some h -> (n <= h < length (pools w))%nat)
  /\ (forall k p, (n <= k)%nat -> pools w !! k = Some p ->
        exists b, p = configured (BuildConnectionString c) b).

(** No space character occurs in the string. *)
Fixpoint spaceless (s : string) : bool :=
  match s with
  | EmptyString => true
  | String c rest => negb (Ascii.eqb c " ") && spaceless rest
  end.

(** The number of [Connect] and [Reconnect] calls in a sequence. *)
Definition opens_pool (o : Op) : bool :=
  match o with
  | OpConnect | OpReconnect => true
  | _ => false
  end.

Definition connect_calls (ops : list Op) : nat :=
  length (List.filter opens_pool ops).

(** ** Sample worlds *)

Definition steady : Server :=
  {| open_err := fun _ _ => None; ping_err := fun _ _ => None;
     close_err := fun _ _ => None; counters := fun _ _ => DBStats_zero |}.

(** The first pool answers pings, every later one is refused. *)
Definition one_shot : Server :=
  {| open_err := fun _ _ => None;
     ping_err := fun _ h => match h with
                            | O => None
                            | S _ => Some "connection refused"
                            end;
     close_err := fun _ _ => None; counters := fun _ _ => DBStats_zero |}.

(** No ping is ever answered. *)
Definition down : Server :=
  {| open_err := fun _ _ => None;
     ping_err := fun _ _ => Some "connection refused";
     close_err := fun _ _ => None; counters := fun _ _ => DBStats_zero |}.

(** Releasing connections reports an error. *)
Definition sticky : Server :=
  {| open_err := fun _ _ => None; ping_err := fun _ _ => None;
     close_err := fun _ _ => Some "broken pipe";
     counters := fun _ _ => DBStats_zero |}.

Definition boot (s : Server) (env : list (string * string)) : World :=
  {| environ := list_to_map env; dotenv := None; server := s;
     pools := []; trace := []; logged := [] |}.

Definition sample_config : DatabaseConfig :=
  {| Host := "localhost"; Port := 5432; User := "testuser";
     Password := "testpass"; Database := "testdb"; SSLMode := "require" |}.

Definition sample_driver : PostgreSQLDriver :=
  {| config := sample_config; db := None |}.

(** An environment with the three required settings and a port beyond
    65535. *)
Definition wide_port_env : list (string * string) :=
  [("DB_USER", "testuser"); ("DB_PASSWORD", "testpass");
   ("DB_NAME", "testdb"); ("DB_PORT", "70000")].

(** The environment names a user; the override file names another one
    and supplies the password and the database. *)
Definition override_world : World :=
  {| environ := list_to_map [("DB_USER", "envuser")];
     dotenv := Some (list_to_map [("DB_USER", "fileuser");
                                  ("DB_PASSWORD", "filepass");
                                  ("DB_NAME", "filedb")]);
     server := steady; pools := []; trace := []; logged := [] |}.

(** The sample manager and its world after a first [Connect]. *)
Definition connected_with (s : Server) : PostgreSQLDriver * World :=
  let r := Connect sample_driver (boot s []) in (r.1.1, r.2).

(** ** Formatting *)

Lemma append_nil_r (s : string) : s +:+ EmptyString = s.
Proof.
  induction s as [|c s IH]; [reflexivity |].
  change (String c (s +:+ EmptyString) = String c s). now f_equal.
Qed.

Lemma Sprintf_lit c rest args :
  c <> "%"%char ->
  fmt.Sprintf (String c rest) args = String c (fmt.Sprintf rest args).
Proof. intros Hc. simpl. rewrite bool_decide_eq_false_2 by exact Hc. reflexivity. Qed.

Lemma Sprintf_verb v rest a args :
  v <> "%"%char ->
  fmt.Sprintf (String "%" (String v rest)) (a :: args)
  = fmt.verb v a +:+ fmt.Sprintf rest args.
Proof. intros Hv. simpl. rewrite bool_decide_eq_false_2 by exact Hv. reflexivity. Qed.

Ltac sprintf :=
  repeat first
    [ rewrite Sprintf_verb by discriminate
    | rewrite Sprintf_lit by discriminate ].

Example Itoa_samples :
  Itoa 0 = "0" /\ Itoa 5432 = "5432" /\ Itoa (-17) = "-17".
Proof. repeat split. Qed.

(** C5. [BuildConnectionString] depends on the config alone and writes
    each field as it is, in the order host, port, user, password, dbname,
    sslmode, with one space between the fields; on the sample config of
    the tests it yields the expected string. *)
Theorem BuildConnectionString_format :
  (forall c,
     BuildConnectionString c
     = "host=" +:+ Host c +:+ " port=" +:+ Itoa (Port c)
       +:+ " user=" +:+ User c +:+ " password=" +:+ Password c
       +:+ " dbname=" +:+ Database c +:+ " sslmode=" +:+ SSLMode c)
  /\ BuildConnectionString sample_config
     = "host=localhost port=5432 user=testuser password=testpass dbname=testdb sslmode=require".
Proof.
  split; [| reflexivity].
  intros c. unfold BuildConnectionString. sprintf.
  cbn [fmt.verb fmt.Sprintf].
  rewrite !bool_decide_eq_true_2 by (left; reflexivity).
  rewrite append_nil_r. reflexivity.
Qed.

(** ** Validation and construction *)

Lemma scanModes_valid (m : string) :
  scanModes m validSSLModes false = true
  <-> m = "disable" \/ m = "require" \/ m = "verify-ca" \/ m = "verify-full".
Proof.
  unfold validSSLModes. cbn [scanModes].
  repeat case_bool_decide; intuition congruence.
Qed.

Lemma validateDatabaseConfig_None (c : DatabaseConfig) :
  validateDatabaseConfig c = None <-> meets_constraints c.
Proof.
  unfold validateDatabaseConfig, meets_constraints.
  pose proof (scanModes_valid (SSLMode c)) as Hm.
  destruct (scanModes (SSLMode c) validSSLModes false);
    repeat case_bool_decide;
    destruct (Z.leb_spec (Port c) 0); destruct (Z.gtb_spec (Port c) 65535);
    cbn [orb negb]; split;
    try discriminate; try reflexivity; intros; try lia;
    try (exfalso; intuition (congruence || lia)).
  - intuition lia.
Qed.

(** C6. [NewPostgreSQLDriverWithConfig] fails exactly when the config is
    nil, or host, user, password or database is empty, or the port lies
    outside 1..65535, or the SSL mode is none of disable, require,
    verify-ca, verify-full. Every other config yields a driver that holds
    this config and no handle; the constructor does not touch the world,
    so no connection is attempted. *)
Theorem NewPostgreSQLDriverWithConfig_fails_iff (oc : option DatabaseConfig) :
  ((exists e, NewPostgreSQLDriverWithConfig oc = inr e)
   <-> oc = None
       \/ exists c, oc = Some c
          /\ (Host c = EmptyString \/ User c = EmptyString
              \/ Password c = EmptyString \/ Database c = EmptyString
              \/ Port c < 1 \/ 65535 < Port c
              \/ (SSLMode c <> "disable" /\ SSLMode c <> "require"
                  /\ SSLMode c <> "verify-ca" /\ SSLMode c <> "verify-full")))
  /\ (forall c, oc = Some c -> meets_constraints c ->
        NewPostgreSQLDriverWithConfig oc = inl {| config := c; db := None |}
        /\ GetDB {| config := c; db := None |} = None).
Proof.
  split.
  - destruct oc as [c|]; cbn [NewPostgreSQLDriverWithConfig].
    + pose proof (validateDatabaseConfig_None c) as Hv.
      unfold meets_constraints in Hv.
      destruct (validateDatabaseConfig c) as [err|]; split.
      * intros _. right. exists c. split; [reflexivity |].
        destruct (decide (Host c = EmptyString)); [tauto |].
        destruct (decide (User c = EmptyString)); [tauto |].
        destruct (decide (Password c = EmptyString)); [tauto |].
        destruct (decide (Database c = EmptyString)); [tauto |].
        destruct (decide (Port c < 1)); [tauto |].
        destruct (decide (65535 < Port c)); [tauto |].
        destruct (decide (SSLMode c = "disable")) as [E|]; [| 
        destruct (decide (SSLMode c = "require")) as [E|]; [|
        destruct (decide (SSLMode c = "verify-ca")) as [E|]; [|
        destruct (decide (SSLMode c = "verify-full")) as [E|]; [| tauto]]]];
          exfalso; assert (Some err = None) as F
            by (apply Hv; repeat split; auto; lia); discriminate F.
      * intros _. eauto.
      * intros [e He]. discriminate He.
      * intros [F | (c' & Hc & Hbad)]; [discriminate F |].
        injection Hc as <-.
        destruct Hv as [Hv _]. specialize (Hv eq_refl).
        exfalso. intuition (congruence || lia).
    + split; [intros _; now left | intros _; eauto].
  - intros c -> Hc. cbn [NewPostgreSQLDriverWithConfig].
    apply validateDatabaseConfig_None in Hc. rewrite Hc. split; reflexivity.
Qed.

Lemma NewPostgreSQLDriverWithConfig_fails_iff_witness :
  NewPostgreSQLDriverWithConfig (Some sample_config) = inl sample_driver
  /\ GetDB sample_driver = None.
Proof.
  apply (proj2 (NewPostgreSQLDriverWithConfig_fails_iff (Some sample_config))
           sample_config eq_refl).
  unfold meets_constraints, sample_config; cbn.
  repeat split; try discriminate; try lia. right; left; reflexivity.
Defined.

(** ** Configuration loader *)

Ltac run_M :=
  unfold mbind, M_bind, mret, M_ret, os.Getenv, godotenv.Load,
    log.Printf, log.Println, emit, ask, with_pools, pool_at;
  cbn [fst snd environ dotenv server pools trace logged].

(** The value [LoadDatabaseConfig] returns, as a function of the settings. *)
Lemma LoadDatabaseConfig_value (w : World) :
  (LoadDatabaseConfig w).1 =
  let get := setting w in
  let portStr := if bool_decide (get "DB_PORT" = EmptyString) then "5432"
                 else get "DB_PORT" in
  match strconv.Atoi portStr with
  | inr err => inr (fmt.Errorf "invalid port number: %v" [ArgE err])
  | inl port =>
      if bool_decide (get "DB_USER" = EmptyString) then
        inr (fmt.Errorf "DB_USER environment variable is required" [])
      else if bool_decide (get "DB_PASSWORD" = EmptyString) then
        inr (fmt.Errorf "DB_PASSWORD environment variable is required" [])
      else if bool_decide (get "DB_NAME" = EmptyString) then
        inr (fmt.Errorf "DB_NAME environment variable is required" [])
      else
        inl {| Host := if bool_decide (get "DB_HOST" = EmptyString)
                       then "localhost" else get "DB_HOST";
               Port := port;
               User := get "DB_USER";
               Password := get "DB_PASSWORD";
               Database := get "DB_NAME";
               SSLMode := if bool_decide (get "DB_SSL_MODE" = EmptyString)
                          then "require" else get "DB_SSL_MODE" |}
  end.
Proof.
  unfold LoadDatabaseConfig, setting, settings.
  destruct w as [env file srv ps tr lg]; destruct file as [file|]; run_M;
    match goal with |- context [strconv.Atoi ?s] => destruct (strconv.Atoi s) end;
    run_M; try reflexivity;
    repeat (case_bool_decide; run_M; try reflexivity).
Qed.

Lemma Atoi_default_port : strconv.Atoi "5432" = inl 5432.
Proof. reflexivity. Qed.

Example numeric_samples :
  numeric "5432" /\ numeric "+80" /\ ~ numeric "54x2" /\ ~ numeric " 5432"
  /\ ~ numeric "99999999999999999999".
Proof.
  repeat split; try (eexists; reflexivity);
    intros [n Hn]; vm_compute in Hn; discriminate Hn.
Qed.

(** C7. [Load()] fails exactly when the port setting is present and does
    not parse as a base-10 integer, or when user, password or database is
    unset or empty. When it succeeds, an unset host is [localhost], an
    unset port is [5432] and an unset SSL mode is [require]. *)
Theorem LoadDatabaseConfig_fails_iff (w : World) :
  ((exists e, (LoadDatabaseConfig w).1 = inr e)
   <-> (setting w "DB_PORT" <> EmptyString /\ ~ numeric (setting w "DB_PORT"))
       \/ setting w "DB_USER" = EmptyString
       \/ setting w "DB_PASSWORD" = EmptyString
       \/ setting w "DB_NAME" = EmptyString)
  /\ (forall c, (LoadDatabaseConfig w).1 = inl c ->
        (setting w "DB_HOST" = EmptyString -> Host c = "localhost")
        /\ (setting w "DB_PORT" = EmptyString -> Port c = 5432)
        /\ (setting w "DB_SSL_MODE" = EmptyString -> SSLMode c = "require")).
Proof.
  rewrite LoadDatabaseConfig_value. cbv zeta. unfold numeric.
  case_bool_decide as Hport.
  - rewrite Atoi_default_port. split.
    + repeat case_bool_decide; split;
        try (intros [e He]; discriminate He); try (intros _; eauto; fail);
        try tauto;
        try (intros [[F _] | [F | [F | F]]]; congruence).
    + intros c Hc. repeat case_bool_decide; try discriminate Hc;
        injection Hc as <-; cbn; repeat split; intros; congruence.
  - destruct (strconv.Atoi (setting w "DB_PORT")) as [port | err] eqn:Hatoi.
    + split.
      * repeat case_bool_decide; split;
          try (intros [e He]; discriminate He); try (intros _; eauto; fail);
          try tauto;
          try (intros [[_ F] | [F | [F | F]]];
               first [congruence | exfalso; apply F; eauto]).
      * intros c Hc. repeat case_bool_decide; try discriminate Hc;
          injection Hc as <-; cbn; repeat split; intros; congruence.
    + split.
      * split; [| intros _; eauto].
        intros _. left. split; [exact Hport |].
        intros [n Hn]. discriminate Hn.
      * intros c Hc. discriminate Hc.
Qed.

Lemma LoadDatabaseConfig_fails_iff_witness :
  Host sample_config = "localhost"
  /\ Port sample_config = 5432
  /\ SSLMode sample_config = "require".
Proof.
  pose (w := boot steady [("DB_USER", "testuser"); ("DB_PASSWORD", "testpass");
                          ("DB_NAME", "testdb")]).
  assert ((LoadDatabaseConfig w).1 = inl sample_config) as Hload
    by (vm_compute; reflexivity).
  destruct (proj2 (LoadDatabaseConfig_fails_iff w) sample_config Hload)
    as (Hh & Hp & Hs).
  split; [| split]; [apply Hh | apply Hp | apply Hs]; vm_compute; reflexivity.
Defined.

(** ** Connect *)

Lemma alter_last {A} (f : A -> A) (l : list A) (x : A) :
  alter f (length l) (l ++ [x]) = l ++ [f x].
Proof.
  rewrite alter_app_r_alt by lia. now rewrite Nat.sub_diag.
Qed.

Lemma lookup_last {A} (l : list A) (x : A) : (l ++ [x]) !! length l = Some x.
Proof. apply list_lookup_middle. reflexivity. Qed.

Ltac run_sql :=
  unfold sql.Open, sql.SetMaxOpenConns, sql.SetMaxIdleConns,
    sql.SetConnMaxLifetime, sql.Ping, sql.Close, sql.Stats;
  run_M.

Lemma Connect_run (d : PostgreSQLDriver) (w : World) :
  let cs := BuildConnectionString (config d) in
  let h := length (pools w) in
  Connect d w =
  match open_err (server w) (trace w) cs with
  | Some e =>
      (d, Some (fmt.Errorf "failed to open database connection: %w" [ArgE e]),
       {| environ := environ w; dotenv := dotenv w; server := server w;
          pools := pools w; trace := trace w ++ [EvOpen "postgres" cs];
          logged := logged w |})
  | None =>
      match ping_err (server w) (trace w ++ setup_events h cs) h with
      | Some e =>
          (d, Some (fmt.Errorf "failed to ping database: %w" [ArgE e]),
           {| environ := environ w; dotenv := dotenv w; server := server w;
              pools := pools w ++ [configured cs true];
              trace := trace w ++ setup_events h cs ++ [EvPing h; EvClose h];
              logged := logged w |})
      | None =>
          ({| config := config d; db := Some h |}, None,
           {| environ := environ w; dotenv := dotenv w; server := server w;
              pools := pools w ++ [configured cs false];
              trace := trace w ++ setup_events h cs ++ [EvPing h];
              logged := logged w ++
                [fmt.Sprintf "Successfully connected to PostgreSQL database: %s"
                   [ArgS (Database (config d))]] |})
      end
  end.
Proof.
  cbv zeta. unfold Connect. run_sql.
  rewrite bool_decide_eq_true_2 by (apply list_elem_of_In; left; reflexivity).
  destruct (open_err (server w) (trace w) (BuildConnectionString (config d)))
    as [e|]; run_M; [reflexivity |].
  rewrite !alter_last, !lookup_last.
  set (cs := BuildConnectionString (config d)).
  set (h := length (pools w)).
  change (sql.setLifetime (5 * time.Minute)
            (sql.setMaxIdle 5 (sql.setMaxOpen 25 (sql.fresh cs))))
    with (configured cs false).
  cbn [sql.isOpen configured closed negb].
  rewrite <- !app_assoc. cbn [app]. fold (setup_events h cs).
  destruct (ping_err (server w) (trace w ++ setup_events h cs) h) as [e|];
    run_M.
  - subst h. rewrite lookup_last. cbn [sql.isOpen configured closed negb].
    run_M. rewrite alter_last. rewrite <- ?app_assoc. reflexivity.
  - rewrite <- ?app_assoc. reflexivity.
Qed.

Lemma ConnectionError_open (e : error) :
  ConnectionError (fmt.Errorf "failed to open database connection: %w" [ArgE e]).
Proof. exists e. now left. Qed.

Lemma ConnectionError_ping (e : error) :
  ConnectionError (fmt.Errorf "failed to ping database: %w" [ArgE e]).
Proof. exists e. now right. Qed.

(** C1. [Connect] opens a pool for the connection string, sets the limits
    25 / 5 / 5 minutes on it, and then pings. When the open or the ping
    fails it returns a connection error and leaves the manager as it was;
    after a failed ping the pool it had just opened is closed. When the
    ping succeeds the manager stores the new handle, whose pool is open. *)
Theorem Connect_all_or_nothing (d : PostgreSQLDriver) (w : World) :
  let cs := BuildConnectionString (config d) in
  let h := length (pools w) in
  let d' := (Connect d w).1.1 in
  let r := (Connect d w).1.2 in
  let w' := (Connect d w).2 in
  match open_err (server w) (trace w) cs with
  | Some _ =>
      (exists e, r = Some e /\ ConnectionError e)
      /\ d' = d
      /\ pools w' = pools w
      /\ trace w' = trace w ++ [EvOpen "postgres" cs]
  | None =>
      match ping_err (server w) (trace w ++ setup_events h cs) h with
      | Some _ =>
          (exists e, r = Some e /\ ConnectionError e)
          /\ d' = d
          /\ pools w' = pools w ++ [configured cs true]
          /\ live w' h = false
          /\ trace w' = trace w ++ setup_events h cs ++ [EvPing h; EvClose h]
      | None =>
          r = None
          /\ d' = {| config := config d; db := Some h |}
          /\ GetDB d' = Some h
          /\ pools w' = pools w ++ [configured cs false]
          /\ live w' h = true
          /\ trace w' = trace w ++ setup_events h cs ++ [EvPing h]
      end
  end.
Proof.
  cbv zeta. rewrite Connect_run. cbv zeta.
  destruct (open_err _ _ _) as [e|]; cbn [fst snd pools trace].
  - repeat split. eexists; split; [reflexivity | apply ConnectionError_open].
  - destruct (ping_err _ _ _) as [e|]; cbn [fst snd pools trace].
    + split; [eexists; split; [reflexivity | apply ConnectionError_ping] |].
      split; [reflexivity |]. split; [reflexivity |].
      split; [| reflexivity].
      unfold live. cbn [pools]. now rewrite lookup_last.
    + split; [reflexivity |]. split; [reflexivity |]. split; [reflexivity |].
      split; [reflexivity |]. split; [| reflexivity].
      unfold live. cbn [pools]. now rewrite lookup_last.
Qed.

(** ** Reconnect *)

Lemma Reconnect_unfold (d : PostgreSQLDriver) (w : World) :
  Reconnect d w = Reconnect_composed d w.
Proof.
  unfold Reconnect, Reconnect_composed.
  destruct (db d) as [h|]; run_M; [| reflexivity].
  destruct (sql.Close h w) as [r w1]. reflexivity.
Qed.

(** C10. On a manager without a handle [Reconnect] skips the close and
    is [Connect]: the same result, the same manager, the same world. *)
Theorem Reconnect_without_handle (d : PostgreSQLDriver) (w : World) :
  db d = None -> Reconnect d w = Connect d w.
Proof.
  intros Hdb. rewrite Reconnect_unfold. unfold Reconnect_composed.
  rewrite Hdb. reflexivity.
Qed.

Lemma Reconnect_without_handle_witness :
  Reconnect sample_driver (boot steady []) = Connect sample_driver (boot steady []).
Proof. apply Reconnect_without_handle. reflexivity. Defined.

(** ** Close *)

Lemma sql_Close_run (h : Handle) (w : World) :
  sql.Close h w =
  (if live w h then close_err (server w) (trace w) h else None,
   {| environ := environ w; dotenv := dotenv w; server := server w;
      pools := if live w h then alter sql.setClosed h (pools w) else pools w;
      trace := trace w ++ [EvClose h]; logged := logged w |}).
Proof.
  unfold sql.Close, live. run_M.
  destruct (sql.isOpen (pools w !! h)); run_M; reflexivity.
Qed.

Lemma isOpen_setClosed (o : option Pool) : sql.isOpen (sql.setClosed <$> o) = false.
Proof. destruct o; reflexivity. Qed.

Lemma live_sql_Close (h : Handle) (w : World) (k : Handle) :
  live (sql.Close h w).2 k = if decide (k = h) then false else live w k.
Proof.
  rewrite sql_Close_run. cbn [snd]. unfold live at 1. cbn [pools].
  destruct (live w h) eqn:Hl; case_decide as Hk; subst.
  - rewrite list_lookup_alter_eq. apply isOpen_setClosed.
  - rewrite list_lookup_alter_ne by congruence. reflexivity.
  - exact Hl.
  - reflexivity.
Qed.

Lemma length_sql_Close (h : Handle) (w : World) :
  length (pools (sql.Close h w).2) = length (pools w).
Proof.
  rewrite sql_Close_run. cbn [snd pools].
  destruct (live w h); [apply length_alter | reflexivity].
Qed.

Lemma Close_run (d : PostgreSQLDriver) (w : World) :
  Close d w =
  match db d with
  | None => (None, w)
  | Some h =>
      let w1 := (sql.Close h w).2 in
      match (sql.Close h w).1 with
      | Some err =>
          (Some (fmt.Errorf "failed to close database connection: %w" [ArgE err]), w1)
      | None =>
          (None, {| environ := environ w1; dotenv := dotenv w1;
                    server := server w1; pools := pools w1; trace := trace w1;
                    logged := logged w1 ++ ["Database connection closed successfully"] |})
      end
  end.
Proof.
  unfold Close. destruct (db d) as [h|]; [| reflexivity].
  run_M. destruct (sql.Close h w) as [[err|] w1]; reflexivity.
Qed.

Lemma live_Close (d : PostgreSQLDriver) (w : World) (k : Handle) :
  live (Close d w).2 k
  = if decide (db d = Some k) then false else live w k.
Proof.
  rewrite Close_run. destruct (db d) as [h|]; cbv zeta.
  - assert (live (sql.Close h w).2 k
            = if decide (Some h = Some k) then false else live w k) as E.
    { rewrite live_sql_Close. repeat case_decide; congruence. }
    destruct (sql.Close h w).1; exact E.
  - case_decide; [discriminate | reflexivity].
Qed.

Lemma IsConnected_dead (d : PostgreSQLDriver) (w : World) :
  holds_live d w = false -> (IsConnected d w).1 = false.
Proof.
  unfold holds_live, IsConnected, live. destruct (db d) as [h|]; [| reflexivity].
  intros Hl. unfold sql.Ping. run_M. rewrite Hl. run_M. reflexivity.
Qed.

(** C3 (as the code has it). [Close] on a manager that holds a handle
    closes the pool behind it and hands the close error, wrapped, to the
    caller; the stored handle is kept, so [GetDB] still returns it, but the
    pool is closed whether or not the close reported an error and
    [IsConnected] is false afterwards. *)
Theorem Close_keeps_handle (d : PostgreSQLDriver) (w : World) (h : Handle) :
  db d = Some h ->
  let d' := (call OpClose d w).1.1 in
  let out := (call OpClose d w).1.2 in
  let w' := (call OpClose d w).2 in
  d' = d
  /\ GetDB d' = Some h
  /\ out = OutErr
             (if live w h
              then (fun e => fmt.Errorf "failed to close database connection: %w" [ArgE e])
                     <$> close_err (server w) (trace w) h
              else None)
  /\ live w' h = false
  /\ (IsConnected d' w').1 = false.
Proof.
  intros Hdb. cbv zeta.
  assert (call OpClose d w = ((d, OutErr (Close d w).1), (Close d w).2)) as E.
  { cbn [call]. run_M. destruct (Close d w) as [e w1]. reflexivity. }
  rewrite E. cbn [fst snd].
  split; [reflexivity |]. split; [exact Hdb |].
  assert (live (Close d w).2 h = false) as Hdead.
  { rewrite live_Close. rewrite decide_True by exact Hdb. reflexivity. }
  split; [| split; [exact Hdead |]].
  - rewrite Close_run, Hdb. cbv zeta. rewrite sql_Close_run. cbn [fst].
    destruct (live w h); [| reflexivity].
    destruct (close_err (server w) (trace w) h); reflexivity.
  - apply IsConnected_dead. unfold holds_live. rewrite Hdb. exact Hdead.
Qed.

Lemma Close_keeps_handle_witness :
  let d := (connected_with steady).1 in
  let w := (connected_with steady).2 in
  (call OpClose d w).1.1 = d
  /\ GetDB (call OpClose d w).1.1 = Some 0%nat
  /\ (call OpClose d w).1.2 = OutErr None
  /\ live (call OpClose d w).2 0%nat = false
  /\ (IsConnected (call OpClose d w).1.1 (call OpClose d w).2).1 = false.
Proof.
  exact (Close_keeps_handle (connected_with steady).1 (connected_with steady).2
           0%nat eq_refl).
Defined.

(** C3 fails as stated: after a [Close] whose underlying close reports an
    error, and equally after one that reports none, [GetDB] still returns
    the handle. *)
Lemma Close_clears_handle_counterexample :
  (let d := (connected_with sticky).1 in
   let w := (connected_with sticky).2 in
   GetDB d = Some 0%nat
   /\ (call OpClose d w).1.2
      = OutErr (Some "failed to close database connection: broken pipe")
   /\ GetDB (call OpClose d w).1.1 <> None)
  /\ (let d := (connected_with steady).1 in
      let w := (connected_with steady).2 in
      (call OpClose d w).1.2 = OutErr None
      /\ GetDB (call OpClose d w).1.1 <> None).
Proof. vm_compute. repeat split; discriminate. Qed.

(** ** Which pools are open after a call *)

Lemma live_out_of_range (w : World) (k : Handle) :
  (length (pools w) <= k)%nat -> live w k = false.
Proof. intros Hk. unfold live. now rewrite lookup_ge_None_2. Qed.

Lemma live_app_one (w w' : World) (p : Pool) (k : Handle) :
  pools w' = pools w ++ [p] ->
  live w' k = if decide (k = length (pools w)) then negb (closed p) else live w k.
Proof.
  intros E. unfold live at 1. rewrite E. case_decide as Hk.
  - subst k. now rewrite lookup_last.
  - destruct (decide (k < length (pools w))%nat) as [Hlt | Hge].
    + now rewrite lookup_app_l.
    + rewrite live_out_of_range by lia.
      rewrite lookup_ge_None_2; [reflexivity |].
      rewrite length_app. cbn [length]. lia.
Qed.

(** [Connect] seen through the pools: a failure leaves every pool as it
    was, a success adds one open pool and stores its handle. *)
Lemma Connect_live (d : PostgreSQLDriver) (w : World) :
  (length (pools w) <= length (pools (Connect d w).2))%nat
  /\ match (Connect d w).1.2 with
     | Some e =>
         ConnectionError e /\ (Connect d w).1.1 = d
         /\ forall k, live (Connect d w).2 k = live w k
     | None =>
         (Connect d w).1.1 = {| config := config d; db := Some (length (pools w)) |}
         /\ forall k, live (Connect d w).2 k
                      = if decide (k = length (pools w)) then true else live w k
     end.
Proof.
  rewrite Connect_run. cbv zeta.
  destruct (open_err _ _ _) as [oe|]; cbn [fst snd pools].
  - split; [lia |]. split; [apply ConnectionError_open |].
    split; reflexivity.
  - destruct (ping_err _ _ _) as [pe|]; cbn [fst snd pools];
      (split; [rewrite length_app; cbn [length]; lia |]).
    + split; [apply ConnectionError_ping |]. split; [reflexivity |].
      intros k. erewrite live_app_one by reflexivity.
      case_decide as Hk; [| reflexivity].
      subst k. now rewrite live_out_of_range.
    + split; [reflexivity |].
      intros k. erewrite live_app_one by reflexivity. reflexivity.
Qed.

Lemma Reconnect_live (d : PostgreSQLDriver) (w : World) :
  (length (pools w) <= length (pools (Reconnect d w).2))%nat
  /\ match (Reconnect d w).1.2 with
     | Some e =>
         ConnectionError e /\ (Reconnect d w).1.1 = d
         /\ forall k, live (Reconnect d w).2 k
                      = if decide (db d = Some k) then false else live w k
     | None =>
         (Reconnect d w).1.1 = {| config := config d; db := Some (length (pools w)) |}
         /\ forall k, live (Reconnect d w).2 k
                      = if decide (k = length (pools w)) then true
                        else if decide (db d = Some k) then false else live w k
     end.
Proof.
  rewrite Reconnect_unfold. unfold Reconnect_composed.
  set (w1 := match db d with Some h => (sql.Close h w).2 | None => w end).
  assert (length (pools w1) = length (pools w)) as Hlen.
  { subst w1. destruct (db d); [apply length_sql_Close | reflexivity]. }
  assert (forall k, live w1 k = if decide (db d = Some k) then false else live w k)
    as Hlive.
  { intros k. subst w1. destruct (db d) as [h|].
    - rewrite live_sql_Close. repeat case_decide; congruence.
    - case_decide; [discriminate | reflexivity]. }
  destruct (Connect_live d w1) as [Hmono HC]. rewrite Hlen in Hmono.
  split; [exact Hmono |].
  destruct ((Connect d w1).1.2) as [e|].
  - destruct HC as (He & Hd & Hk). repeat split; auto.
    intros k. rewrite Hk. apply Hlive.
  - destruct HC as (Hd & Hk). rewrite Hlen in Hd, Hk. split; [exact Hd |].
    intros k. rewrite Hk, Hlive. reflexivity.
Qed.

(** C9 (as the code has it). [Reconnect] is: close the stored handle if
    there is one, drop what the close reports, then [Connect]. When it
    succeeds the manager holds a new handle whose pool is open. When it
    fails it returns a connection error and the stored handle field is
    what it was, but the pool behind that handle has been closed; every other
    pool is open exactly when it was open before. *)
Theorem Reconnect_closes_then_connects (d : PostgreSQLDriver) (w : World) :
  let d' := (Reconnect d w).1.1 in
  let r := (Reconnect d w).1.2 in
  let w' := (Reconnect d w).2 in
  Reconnect d w = Reconnect_composed d w
  /\ match r with
     | None =>
         db d' = Some (length (pools w)) /\ config d' = config d
         /\ holds_live d' w' = true
     | Some e =>
         ConnectionError e /\ d' = d /\ holds_live d' w' = false
         /\ (forall k, live w' k
                       = if decide (db d = Some k) then false else live w k)
     end.
Proof.
  cbv zeta. split; [apply Reconnect_unfold |].
  destruct (Reconnect_live d w) as [_ HR].
  destruct ((Reconnect d w).1.2) as [e|].
  - destruct HR as (He & Hd & Hk). rewrite Hd.
    split; [exact He |]. split; [reflexivity |]. split; [| exact Hk].
    unfold holds_live. destruct (db d) as [h|] eqn:Hdb; [| reflexivity].
    rewrite Hk. now rewrite decide_True.
  - destruct HR as (Hd & Hk). rewrite Hd. cbn [db config].
    split; [reflexivity |]. split; [reflexivity |].
    unfold holds_live. cbn [db]. rewrite Hk. now rewrite decide_True.
Qed.

(** C9 fails as stated: a connected manager whose [Reconnect] fails is no
    longer connected, although the server still answers pings for the pool
    it held; its state has changed from an open to a closed handle. *)
Lemma Reconnect_failure_changes_state :
  let d := (connected_with one_shot).1 in
  let w := (connected_with one_shot).2 in
  let d' := (Reconnect d w).1.1 in
  let w' := (Reconnect d w).2 in
  (IsConnected d w).1 = true
  /\ (Reconnect d w).1.2
     = Some "failed to ping database: connection refused"
  /\ manager_state d w = Some (0%nat, true)
  /\ manager_state d' w' = Some (0%nat, false)
  /\ manager_state d' w' <> manager_state d w
  /\ (IsConnected d' w').1 = false.
Proof. vm_compute. repeat split; discriminate. Qed.

(** ** Sequences of calls *)

Lemma fresh_manager_db (d : PostgreSQLDriver) : fresh_manager d -> db d = None.
Proof.
  intros [[oc H] | [w H]].
  - destruct oc as [c|]; cbn [NewPostgreSQLDriverWithConfig] in H;
      [| discriminate H].
    destruct (validateDatabaseConfig c); [discriminate H |].
    injection H as <-. reflexivity.
  - unfold NewPostgreSQLDriver in H. run_M.
    revert H. unfold mbind, M_bind.
    destruct (LoadDatabaseConfig w) as [[c | e] w1]; cbn [fst];
      intros H; [| discriminate H].
    injection H as <-. reflexivity.
Qed.

Lemma call_run (o : Op) (d : PostgreSQLDriver) (w : World) :
  call o d w =
  match o with
  | OpConnect => (((Connect d w).1.1, OutErr (Connect d w).1.2), (Connect d w).2)
  | OpIsConnected => ((d, OutBool (IsConnected d w).1), (IsConnected d w).2)
  | OpReconnect =>
      (((Reconnect d w).1.1, OutErr (Reconnect d w).1.2), (Reconnect d w).2)
  | OpClose => ((d, OutErr (Close d w).1), (Close d w).2)
  | OpGetDB => ((d, OutDB (GetDB d)), w)
  | OpGetConfig => ((d, OutConfig (GetConfig d)), w)
  | OpGetConnectionStats =>
      ((d, OutStats (GetConnectionStats d w).1), (GetConnectionStats d w).2)
  end.
Proof.
  destruct o; cbn [call]; run_M; try reflexivity.
  - destruct (Connect d w) as [[d' e] w']. reflexivity.
  - destruct (IsConnected d w) as [b w']. reflexivity.
  - destruct (Reconnect d w) as [[d' e] w']. reflexivity.
  - destruct (Close d w) as [e w']. reflexivity.
  - destruct (GetConnectionStats d w) as [st w']. reflexivity.
Qed.

Lemma calls_cons (o : Op) (rest : list Op) (d : PostgreSQLDriver) (w : World) :
  calls (o :: rest) d w =
  let r1 := call o d w in
  let r2 := calls rest r1.1.1 r1.2 in
  ((r2.1.1, r1.1.2 :: r2.1.2), r2.2).
Proof.
  cbn [calls]. run_M. destruct (call o d w) as [[d1 r] w1]. cbn [fst snd].
  destruct (calls rest d1 w1) as [[d2 rs] w2]. reflexivity.
Qed.

Lemma pools_IsConnected (d : PostgreSQLDriver) (w : World) :
  pools (IsConnected d w).2 = pools w.
Proof.
  unfold IsConnected. destruct (db d) as [h|]; [| reflexivity].
  run_sql. destruct (sql.isOpen (pools w !! h)); run_M;
    [destruct (ping_err _ _ _) |]; reflexivity.
Qed.

Lemma pools_GetConnectionStats (d : PostgreSQLDriver) (w : World) :
  pools (GetConnectionStats d w).2 = pools w.
Proof.
  unfold GetConnectionStats. destruct (db d) as [h|]; reflexivity.
Qed.

(** Calls on a manager without a handle: only a [Connect] or [Reconnect]
    that returns [nil] gives it one. *)
Lemma call_without_handle (o : Op) (d : PostgreSQLDriver) (w : World) :
  db d = None ->
  connected o (call o d w).1.2 = true \/ db (call o d w).1.1 = None.
Proof.
  intros Hdb. rewrite call_run. destruct o; cbn [fst snd connected]; auto.
  - destruct (Connect_live d w) as [_ HC].
    destruct ((Connect d w).1.2); [| now left].
    right. destruct HC as (_ & -> & _). exact Hdb.
  - destruct (Reconnect_live d w) as [_ HC].
    destruct ((Reconnect d w).1.2); [| now left].
    right. destruct HC as (_ & -> & _). exact Hdb.
Qed.

Lemma never_connected_db (ops : list Op) (d : PostgreSQLDriver) (w : World) :
  db d = None ->
  ever_connected ops (calls ops d w).1.2 = false ->
  db (calls ops d w).1.1 = None.
Proof.
  revert d w. induction ops as [| o rest IH]; intros d w Hdb Hnever.
  - exact Hdb.
  - rewrite calls_cons in *. cbv zeta in *. cbn [fst snd] in *.
    unfold ever_connected in Hnever. cbn [zip zip_with existsb fst snd] in Hnever.
    apply orb_false_elim in Hnever as [Hnow Hlater].
    destruct (call_without_handle o d w Hdb) as [F | Hd1]; [congruence |].
    apply IH; assumption.
Qed.

(** C8. A manager that comes from a constructor and has gone through any
    calls none of which was a [Connect] or [Reconnect] that returned [nil]:
    [GetDB] is absent, [IsConnected] is false, [Close] returns no error
    and [GetConnectionStats] is the all-zero snapshot; the three calls
    leave the world untouched. *)
Theorem never_connected_manager (ops : list Op) (d0 : PostgreSQLDriver) (w : World) :
  fresh_manager d0 ->
  ever_connected ops (calls ops d0 w).1.2 = false ->
  let d := (calls ops d0 w).1.1 in
  let w' := (calls ops d0 w).2 in
  GetDB d = None
  /\ IsConnected d w' = (false, w')
  /\ Close d w' = (None, w')
  /\ GetConnectionStats d w' = (DBStats_zero, w').
Proof.
  intros Hfresh Hnever. cbv zeta.
  pose proof (never_connected_db ops d0 w (fresh_manager_db d0 Hfresh) Hnever)
    as Hdb.
  unfold GetDB, IsConnected, Close, GetConnectionStats. rewrite Hdb.
  repeat split.
Qed.

Lemma sample_driver_fresh : fresh_manager sample_driver.
Proof. left. exists (Some sample_config). reflexivity. Qed.

Lemma never_connected_manager_witness :
  let r := calls [OpConnect; OpIsConnected; OpReconnect; OpClose]
             sample_driver (boot down []) in
  GetDB r.1.1 = None
  /\ IsConnected r.1.1 r.2 = (false, r.2)
  /\ Close r.1.1 r.2 = (None, r.2)
  /\ GetConnectionStats r.1.1 r.2 = (DBStats_zero, r.2).
Proof.
  apply (never_connected_manager [OpConnect; OpIsConnected; OpReconnect; OpClose]
           sample_driver (boot down [])).
  - exact sample_driver_fresh.
  - vm_compute. reflexivity.
Defined.

(** ** One live handle *)

Lemma owns_only_idle (n : nat) (d : PostgreSQLDriver) (w : World) (k : Handle) :
  owns_only n d w -> holds_live d w = false -> (n <= k)%nat -> live w k = false.
Proof.
  intros [_ Hown] Hidle Hk. destruct (live w k) eqn:Hl; [| reflexivity].
  unfold holds_live in Hidle. rewrite (Hown k Hk Hl) in Hidle. congruence.
Qed.

Lemma call_owns_only (n : nat) (o : Op) (d : PostgreSQLDriver) (w : World) :
  owns_only n d w ->
  (o = OpConnect -> holds_live d w = false) ->
  owns_only n (call o d w).1.1 (call o d w).2.
Proof.
  intros Hinv Hidle. pose proof Hinv as [Hlen Hown].
  rewrite call_run. destruct o; cbn [fst snd]; try exact Hinv.
  - specialize (Hidle eq_refl).
    destruct (Connect_live d w) as [Hmono HC]. split; [lia |].
    intros k Hk. destruct ((Connect d w).1.2).
    + destruct HC as (_ & _ & Hl). rewrite Hl.
      rewrite (owns_only_idle n d w k Hinv Hidle Hk). discriminate.
    + destruct HC as (-> & Hl). rewrite Hl. cbn [db]. case_decide as E.
      * intros _. now subst k.
      * rewrite (owns_only_idle n d w k Hinv Hidle Hk). discriminate.
  - split; [now rewrite pools_IsConnected |].
    intros k Hk. unfold live. rewrite pools_IsConnected. apply Hown, Hk.
  - destruct (Reconnect_live d w) as [Hmono HC]. split; [lia |].
    intros k Hk. destruct ((Reconnect d w).1.2).
    + destruct HC as (_ & -> & Hl). rewrite Hl.
      case_decide as E; [discriminate | apply Hown, Hk].
    + destruct HC as (-> & Hl). rewrite Hl. cbn [db]. case_decide as E.
      * intros _. now subst k.
      * case_decide as E'; [discriminate |].
        intros Hlive. exfalso. apply E'. apply Hown; assumption.
  - split.
    + rewrite Close_run. destruct (db d) as [h|]; [| exact Hlen]. cbv zeta.
      destruct ((sql.Close h w).1); cbn [snd pools];
        now rewrite length_sql_Close.
    + intros k Hk. rewrite live_Close.
      case_decide as E; [discriminate | apply Hown, Hk].
  - split; [now rewrite pools_GetConnectionStats |].
    intros k Hk. unfold live. rewrite pools_GetConnectionStats. apply Hown, Hk.
Qed.

Lemma calls_owns_only (n : nat) (ops : list Op) (d : PostgreSQLDriver) (w : World) :
  owns_only n d w ->
  connects_from_idle ops d w = true ->
  owns_only n (calls ops d w).1.1 (calls ops d w).2.
Proof.
  revert d w. induction ops as [| o rest IH]; intros d w Hinv Hdisc.
  - exact Hinv.
  - rewrite calls_cons. cbv zeta. cbn [fst snd].
    cbn [connects_from_idle] in Hdisc.
    apply andb_prop in Hdisc as [Hnow Hlater].
    destruct (call o d w) as [[d1 r] w1] eqn:Hcall.
    cbn [fst snd]. apply IH; [| exact Hlater].
    replace d1 with (call o d w).1.1 by now rewrite Hcall.
    replace w1 with (call o d w).2 by now rewrite Hcall.
    apply call_owns_only; [exact Hinv |].
    intros ->. now apply negb_true_iff in Hnow.
Qed.

(** C4 (as the code has it). Take a manager from a constructor and any
    sequence of calls in which [Connect] is only called while the manager
    stores no live handle. Then, of the pools opened during the sequence,
    at most one is open, it is the one the manager stores, and a [Close]
    closes it. *)
Theorem one_live_handle (ops : list Op) (d0 : PostgreSQLDriver) (w : World) :
  fresh_manager d0 ->
  connects_from_idle ops d0 w = true ->
  let d := (calls ops d0 w).1.1 in
  let w' := (calls ops d0 w).2 in
  let n := length (pools w) in
  (forall k, (n <= k)%nat -> live w' k = true -> db d = Some k)
  /\ (forall k1 k2, (n <= k1)%nat -> (n <= k2)%nat ->
         live w' k1 = true -> live w' k2 = true -> k1 = k2)
  /\ (forall k, (n <= k)%nat -> live (Close d w').2 k = false).
Proof.
  intros Hfresh Hdisc. cbv zeta.
  assert (owns_only (length (pools w)) d0 w) as Hstart.
  { split; [lia |]. intros k Hk Hl.
    rewrite live_out_of_range in Hl by exact Hk. discriminate Hl. }
  destruct (calls_owns_only _ ops d0 w Hstart Hdisc) as [_ Hown].
  split; [exact Hown |]. split.
  - intros k1 k2 H1 H2 L1 L2.
    pose proof (Hown k1 H1 L1) as E1. pose proof (Hown k2 H2 L2) as E2.
    congruence.
  - intros k Hk. rewrite live_Close. case_decide as E; [reflexivity |].
    destruct (live (calls ops d0 w).2 k) eqn:Hl; [| reflexivity].
    exfalso. apply E. apply Hown; assumption.
Qed.

Lemma one_live_handle_witness :
  let ops := [OpConnect; OpIsConnected; OpClose; OpConnect; OpReconnect; OpGetDB] in
  let r := calls ops sample_driver (boot steady []) in
  (forall k, (0 <= k)%nat -> live r.2 k = true -> db r.1.1 = Some k)
  /\ (forall k1 k2, (0 <= k1)%nat -> (0 <= k2)%nat ->
         live r.2 k1 = true -> live r.2 k2 = true -> k1 = k2)
  /\ (forall k, (0 <= k)%nat -> live (Close r.1.1 r.2).2 k = false).
Proof.
  apply (one_live_handle
           [OpConnect; OpIsConnected; OpClose; OpConnect; OpReconnect; OpGetDB]
           sample_driver (boot steady [])).
  - exact sample_driver_fresh.
  - vm_compute. reflexivity.
Defined.

(** C4 fails as stated: a second [Connect] on a connected manager opens a
    second pool and drops the handle of the first, which stays open and
    which no later [Close] or [Reconnect] of the manager reaches. *)
Lemma second_Connect_leaks_handle :
  (let r := calls [OpConnect; OpConnect] sample_driver (boot steady []) in
   live r.2 0%nat = true /\ live r.2 1%nat = true /\ db r.1.1 = Some 1%nat)
  /\ (let r := calls [OpConnect; OpConnect; OpClose; OpReconnect; OpClose]
                 sample_driver (boot steady []) in
      live r.2 0%nat = true /\ db r.1.1 = Some 2%nat).
Proof. vm_compute. repeat split. Qed.

(** ** The two construction paths *)

Lemma NewPostgreSQLDriverWithConfig_valid (oc : option DatabaseConfig)
    (d : PostgreSQLDriver) :
  NewPostgreSQLDriverWithConfig oc = inl d -> meets_constraints (config d).
Proof.
  destruct oc as [c|]; cbn [NewPostgreSQLDriverWithConfig]; [| discriminate].
  destruct (validateDatabaseConfig c) eqn:Hv; [discriminate |].
  intros H. injection H as <-. now apply validateDatabaseConfig_None.
Qed.

(** C2 (the code at the failing input). With the port setting [70000] in
    the environment [NewPostgreSQLDriver] returns a manager; its config
    is the one [validateDatabaseConfig] and [NewPostgreSQLDriverWithConfig]
    refuse; [Connect] on this manager opens a pool for that port. *)
Theorem NewPostgreSQLDriver_skips_validation :
  let w := boot steady wide_port_env in
  let c := {| Host := "localhost"; Port := 70000; User := "testuser";
              Password := "testpass"; Database := "testdb";
              SSLMode := "require" |} in
  let d := {| config := c; db := None |} in
  (NewPostgreSQLDriver w).1 = inl d
  /\ validateDatabaseConfig c = Some "port must be between 1 and 65535"
  /\ NewPostgreSQLDriverWithConfig (Some c)
     = inr "invalid database configuration: port must be between 1 and 65535"
  /\ ~ meets_constraints c
  /\ (Connect d (NewPostgreSQLDriver w).2).1.2 = None
  /\ trace (Connect d (NewPostgreSQLDriver w).2).2 !! 0%nat
     = Some (EvOpen "postgres"
               "host=localhost port=70000 user=testuser password=testpass dbname=testdb sslmode=require").
Proof.
  cbv zeta. split; [vm_compute; reflexivity |].
  split; [vm_compute; reflexivity |]. split; [vm_compute; reflexivity |].
  split; [| split; vm_compute; reflexivity].
  unfold meets_constraints. cbn [Port]. lia.
Qed.

(** * Further properties of the loader and the validator *)

Lemma Atoi_range (s : string) (v : Z) :
  strconv.Atoi s = inl v -> minInt <= v <= maxInt.
Proof.
  unfold strconv.Atoi. destruct s as [| c0 rest]; [discriminate |].
  destruct (if bool_decide (c0 = "-"%char \/ c0 = "+"%char) then rest
            else String c0 rest); [discriminate |].
  destruct (strconv.digits 0 _) as [n|]; [| discriminate].
  cbv zeta.
  destruct ((minInt <=? (if bool_decide (c0 = "-"%char) then - n else n))
            && ((if bool_decide (c0 = "-"%char) then - n else n) <=? maxInt))
    eqn:Hr; [| discriminate].
  intros H. injection H as <-.
  apply andb_prop in Hr as [H1 H2]. split; lia.
Qed.

(** What a successful load fixes about its result. *)
Lemma LoadDatabaseConfig_inl (w : World) (c : DatabaseConfig) :
  (LoadDatabaseConfig w).1 = inl c ->
  Host c = (if bool_decide (setting w "DB_HOST" = EmptyString)
            then "localhost" else setting w "DB_HOST")
  /\ strconv.Atoi (if bool_decide (setting w "DB_PORT" = EmptyString)
                   then "5432" else setting w "DB_PORT") = inl (Port c)
  /\ User c = setting w "DB_USER" /\ User c <> EmptyString
  /\ Password c = setting w "DB_PASSWORD" /\ Password c <> EmptyString
  /\ Database c = setting w "DB_NAME" /\ Database c <> EmptyString
  /\ SSLMode c = (if bool_decide (setting w "DB_SSL_MODE" = EmptyString)
                  then "require" else setting w "DB_SSL_MODE").
Proof.
  rewrite LoadDatabaseConfig_value. cbv zeta.
  destruct (strconv.Atoi _) as [port | err]; [| discriminate].
  repeat case_bool_decide; try discriminate;
    intros Eq; injection Eq as <-; cbn; repeat split; assumption.
Qed.

(** X1. [validateDatabaseConfig] returns no error exactly for the configs
    that meet the whole table: non-empty host, user, password and
    database, a port in 1..65535 and one of the four SSL modes. *)
Theorem validateDatabaseConfig_accepts_iff (c : DatabaseConfig) :
  validateDatabaseConfig c = None <-> meets_constraints c.
Proof. apply validateDatabaseConfig_None. Qed.

(** X2. A config returned by [LoadDatabaseConfig] never has an empty host,
    user, password, database or SSL mode, and its port fits an [int]. *)
Theorem LoadDatabaseConfig_nonempty (w : World) (c : DatabaseConfig) :
  (LoadDatabaseConfig w).1 = inl c ->
  Host c <> EmptyString /\ User c <> EmptyString
  /\ Password c <> EmptyString /\ Database c <> EmptyString
  /\ SSLMode c <> EmptyString /\ minInt <= Port c <= maxInt.
Proof.
  intros H. apply LoadDatabaseConfig_inl in H
    as (Hh & Hp & _ & Hu & _ & Hpw & _ & Hd & Hs).
  apply Atoi_range in Hp.
  repeat split; try assumption; try lia.
  - rewrite Hh. clear. case_bool_decide; [discriminate | assumption].
  - rewrite Hs. clear. case_bool_decide; [discriminate | assumption].
Qed.

Lemma LoadDatabaseConfig_sample :
  (LoadDatabaseConfig
     (boot steady [("DB_USER", "testuser"); ("DB_PASSWORD", "testpass");
                   ("DB_NAME", "testdb")])).1 = inl sample_config.
Proof. vm_compute. reflexivity. Qed.

Lemma LoadDatabaseConfig_nonempty_witness :
  Host sample_config <> EmptyString /\ User sample_config <> EmptyString
  /\ Password sample_config <> EmptyString
  /\ Database sample_config <> EmptyString
  /\ SSLMode sample_config <> EmptyString
  /\ minInt <= Port sample_config <= maxInt.
Proof.
  exact (LoadDatabaseConfig_nonempty _ _ LoadDatabaseConfig_sample).
Defined.

(** X3. A config returned by [LoadDatabaseConfig] passes
    [validateDatabaseConfig] exactly when its port lies in 1..65535 and
    its SSL mode is one of the four modes: these two checks are all the
    loader leaves open. *)
Theorem LoadDatabaseConfig_validates_iff (w : World) (c : DatabaseConfig) :
  (LoadDatabaseConfig w).1 = inl c ->
  (validateDatabaseConfig c = None
   <-> 1 <= Port c <= 65535
       /\ (SSLMode c = "disable" \/ SSLMode c = "require"
           \/ SSLMode c = "verify-ca" \/ SSLMode c = "verify-full")).
Proof.
  intros H. rewrite validateDatabaseConfig_None.
  pose proof H as Hload. apply LoadDatabaseConfig_inl in H
    as (Hh & _ & _ & Hu & _ & Hpw & _ & Hd & _).
  assert (Host c <> EmptyString) as Hh'.
  { rewrite Hh. clear. case_bool_decide; [discriminate | assumption]. }
  unfold meets_constraints. tauto.
Qed.

Lemma LoadDatabaseConfig_validates_iff_witness :
  validateDatabaseConfig sample_config = None
  <-> 1 <= Port sample_config <= 65535
      /\ (SSLMode sample_config = "disable" \/ SSLMode sample_config = "require"
          \/ SSLMode sample_config = "verify-ca"
          \/ SSLMode sample_config = "verify-full").
Proof.
  exact (LoadDatabaseConfig_validates_iff _ _ LoadDatabaseConfig_sample).
Defined.

(** X4. When host, port and SSL mode are all unset, whatever
    [LoadDatabaseConfig] returns passes [validateDatabaseConfig], and
    [NewPostgreSQLDriverWithConfig] accepts it: the defaults are valid. *)
Theorem LoadDatabaseConfig_defaults_valid (w : World) (c : DatabaseConfig) :
  (LoadDatabaseConfig w).1 = inl c ->
  setting w "DB_HOST" = EmptyString ->
  setting w "DB_PORT" = EmptyString ->
  setting w "DB_SSL_MODE" = EmptyString ->
  validateDatabaseConfig c = None
  /\ NewPostgreSQLDriverWithConfig (Some c) = inl {| config := c; db := None |}.
Proof.
  intros H Hh Hp Hs.
  assert (validateDatabaseConfig c = None) as Hv.
  { apply validateDatabaseConfig_None.
    apply LoadDatabaseConfig_inl in H
      as (Eh & Ep & _ & Hu & _ & Hpw & _ & Hd & Es).
    rewrite bool_decide_eq_true_2 in Eh, Ep, Es by assumption.
    rewrite Atoi_default_port in Ep. injection Ep as Ep.
    unfold meets_constraints. rewrite Eh, Es, <- Ep.
    repeat split; try assumption; try discriminate; try lia. tauto. }
  split; [exact Hv |]. cbn [NewPostgreSQLDriverWithConfig]. now rewrite Hv.
Qed.

Lemma LoadDatabaseConfig_defaults_valid_witness :
  validateDatabaseConfig sample_config = None
  /\ NewPostgreSQLDriverWithConfig (Some sample_config)
     = inl {| config := sample_config; db := None |}.
Proof.
  apply (LoadDatabaseConfig_defaults_valid _ _ LoadDatabaseConfig_sample);
    vm_compute; reflexivity.
Defined.

(** X5. Every setting that is present reaches the config unchanged: user,
    password and database always, host and SSL mode when set, and a set
    port as the integer it parses to. *)
Theorem LoadDatabaseConfig_verbatim (w : World) (c : DatabaseConfig) :
  (LoadDatabaseConfig w).1 = inl c ->
  User c = setting w "DB_USER"
  /\ Password c = setting w "DB_PASSWORD"
  /\ Database c = setting w "DB_NAME"
  /\ (setting w "DB_HOST" <> EmptyString -> Host c = setting w "DB_HOST")
  /\ (setting w "DB_PORT" <> EmptyString ->
      strconv.Atoi (setting w "DB_PORT") = inl (Port c))
  /\ (setting w "DB_SSL_MODE" <> EmptyString ->
      SSLMode c = setting w "DB_SSL_MODE").
Proof.
  intros H. apply LoadDatabaseConfig_inl in H
    as (Hh & Hp & Hu & _ & Hpw & _ & Hd & _ & Hs).
  repeat split; try assumption; intros Hset.
  - now rewrite bool_decide_eq_false_2 in Hh.
  - now rewrite bool_decide_eq_false_2 in Hp.
  - now rewrite bool_decide_eq_false_2 in Hs.
Qed.

Lemma LoadDatabaseConfig_verbatim_witness :
  User sample_config = "testuser" /\ Password sample_config = "testpass"
  /\ Database sample_config = "testdb".
Proof.
  destruct (LoadDatabaseConfig_verbatim _ _ LoadDatabaseConfig_sample)
    as (Hu & Hp & Hd & _).
  split; [| split]; [rewrite Hu | rewrite Hp | rewrite Hd];
    vm_compute; reflexivity.
Defined.

(** X6. [LoadDatabaseConfig] reports the first problem it meets, in the
    order port, user, password, database: a port that does not parse
    hides any missing variable, and a missing user hides a missing
    password or database. *)
Theorem LoadDatabaseConfig_first_error (w : World) :
  (forall a, setting w "DB_PORT" <> EmptyString ->
     strconv.Atoi (setting w "DB_PORT") = inr a ->
     (LoadDatabaseConfig w).1
     = inr (fmt.Errorf "invalid port number: %v" [ArgE a]))
  /\ (setting w "DB_PORT" = EmptyString \/ numeric (setting w "DB_PORT") ->
      (setting w "DB_USER" = EmptyString ->
       (LoadDatabaseConfig w).1 = inr "DB_USER environment variable is required")
      /\ (setting w "DB_USER" <> EmptyString ->
          setting w "DB_PASSWORD" = EmptyString ->
          (LoadDatabaseConfig w).1
          = inr "DB_PASSWORD environment variable is required")
      /\ (setting w "DB_USER" <> EmptyString ->
          setting w "DB_PASSWORD" <> EmptyString ->
          setting w "DB_NAME" = EmptyString ->
          (LoadDatabaseConfig w).1
          = inr "DB_NAME environment variable is required")).
Proof.
  rewrite LoadDatabaseConfig_value. cbv zeta. split.
  - intros a Hset Ha. rewrite bool_decide_eq_false_2 by exact Hset.
    now rewrite Ha.
  - intros Hport.
    assert (exists p, strconv.Atoi
              (if bool_decide (setting w "DB_PORT" = EmptyString)
               then "5432" else setting w "DB_PORT") = inl p) as [p Hp].
    { destruct Hport as [E | [p Hp]].
      - rewrite bool_decide_eq_true_2 by exact E. now exists 5432.
      - case_bool_decide; [now exists 5432 | now exists p]. }
    rewrite Hp. repeat split; intros.
    + now rewrite bool_decide_eq_true_2.
    + rewrite bool_decide_eq_false_2 by assumption.
      now rewrite bool_decide_eq_true_2.
    + rewrite !bool_decide_eq_false_2 by assumption.
      now rewrite bool_decide_eq_true_2.
Qed.

Lemma LoadDatabaseConfig_first_error_witness :
  (LoadDatabaseConfig (boot steady [("DB_PORT", "54x2")])).1
  = inr (fmt.Errorf "invalid port number: %v"
           [ArgE (strconv.syntaxError "54x2")])
  /\ (LoadDatabaseConfig (boot steady [("DB_NAME", "testdb")])).1
     = inr "DB_USER environment variable is required".
Proof.
  split.
  - apply (proj1 (LoadDatabaseConfig_first_error
                    (boot steady [("DB_PORT", "54x2")]))
             (strconv.syntaxError "54x2"));
      vm_compute; [discriminate | reflexivity].
  - apply (proj2 (LoadDatabaseConfig_first_error
                    (boot steady [("DB_NAME", "testdb")])));
      [left |]; vm_compute; reflexivity.
Defined.

(** The world [LoadDatabaseConfig] leaves behind. *)
Lemma LoadDatabaseConfig_world (w : World) :
  (LoadDatabaseConfig w).2 =
  {| environ := settings w; dotenv := dotenv w; server := server w;
     pools := pools w; trace := trace w;
     logged := match dotenv w with
               | Some _ => logged w
               | None =>
                   logged w ++
                   [fmt.Sprintf "Warning: .env file not found: %v"
                      [ArgE "open .env: no such file or directory"]]
               end |}.
Proof.
  unfold LoadDatabaseConfig, settings.
  destruct w as [env file srv ps tr lg]; destruct file as [file|]; run_M;
    match goal with |- context [strconv.Atoi ?s] => destruct (strconv.Atoi s) end;
    run_M; try reflexivity;
    repeat (case_bool_decide; run_M; try reflexivity).
Qed.

Lemma NewPostgreSQLDriver_run (w : World) :
  NewPostgreSQLDriver w =
  (match (LoadDatabaseConfig w).1 with
   | inl c => inl {| config := c; db := None |}
   | inr err =>
       inr (fmt.Errorf "failed to load database configuration: %w" [ArgE err])
   end, (LoadDatabaseConfig w).2).
Proof.
  unfold NewPostgreSQLDriver. run_M.
  destruct (LoadDatabaseConfig w) as [[c | err] w1]; reflexivity.
Qed.

(** X7. [NewPostgreSQLDriver] makes no call to the database: the pools and
    the trace of calls are what they were. It leaves the environment
    completed by the override file, and it logs exactly one warning when
    that file is missing and nothing otherwise. *)
Theorem NewPostgreSQLDriver_no_connection (w : World) :
  pools (NewPostgreSQLDriver w).2 = pools w
  /\ trace (NewPostgreSQLDriver w).2 = trace w
  /\ environ (NewPostgreSQLDriver w).2 = settings w
  /\ match dotenv w with
     | Some _ => logged (NewPostgreSQLDriver w).2 = logged w
     | None => exists line, logged (NewPostgreSQLDriver w).2 = logged w ++ [line]
     end.
Proof.
  rewrite NewPostgreSQLDriver_run. cbn [snd].
  rewrite LoadDatabaseConfig_world. cbn [pools trace environ logged].
  repeat split. destruct (dotenv w); [reflexivity | eexists; reflexivity].
Qed.

(** X8. A variable of the process environment wins over the override
    file, and the file is used for a variable the environment lacks: this
    is how user, password and database reach the loaded config. *)
Theorem LoadDatabaseConfig_precedence (w : World) (c : DatabaseConfig) :
  (LoadDatabaseConfig w).1 = inl c ->
  (forall v, environ w !! "DB_USER" = Some v -> User c = v)
  /\ (forall v, environ w !! "DB_PASSWORD" = Some v -> Password c = v)
  /\ (forall v, environ w !! "DB_NAME" = Some v -> Database c = v)
  /\ (forall file v, dotenv w = Some file ->
        environ w !! "DB_USER" = None -> file !! "DB_USER" = Some v ->
        User c = v)
  /\ (forall file v, dotenv w = Some file ->
        environ w !! "DB_PASSWORD" = None -> file !! "DB_PASSWORD" = Some v ->
        Password c = v)
  /\ (forall file v, dotenv w = Some file ->
        environ w !! "DB_NAME" = None -> file !! "DB_NAME" = Some v ->
        Database c = v).
Proof.
  intros H. apply LoadDatabaseConfig_inl in H
    as (_ & _ & Hu & _ & Hpw & _ & Hd & _ & _).
  assert (forall key v, environ w !! key = Some v -> setting w key = v) as Henv.
  { intros key v Hv. unfold setting, settings.
    destruct (dotenv w) as [file|]; [| now rewrite Hv].
    now rewrite (lookup_union_Some_l _ _ _ _ Hv). }
  assert (forall key file v, dotenv w = Some file -> environ w !! key = None ->
            file !! key = Some v -> setting w key = v) as Hfile.
  { intros key file v Hf Hn Hv. unfold setting, settings. rewrite Hf.
    rewrite lookup_union_r by exact Hn. now rewrite Hv. }
  rewrite Hu, Hpw, Hd. repeat split; eauto.
Qed.

Lemma LoadDatabaseConfig_precedence_witness :
  exists c, (LoadDatabaseConfig override_world).1 = inl c
            /\ User c = "envuser" /\ Password c = "filepass".
Proof.
  eexists. split; [vm_compute; reflexivity |].
  match goal with |- User ?c = _ /\ _ =>
    assert ((LoadDatabaseConfig override_world).1 = inl c) as H
      by (vm_compute; reflexivity);
    destruct (LoadDatabaseConfig_precedence override_world c H)
      as (Hu & _ & _ & _ & Hp & _)
  end.
  split.
  - apply Hu. vm_compute. reflexivity.
  - apply (Hp _ _ eq_refl); vm_compute; reflexivity.
Defined.

(** * Further properties of the manager *)

Lemma IsConnected_run (d : PostgreSQLDriver) (w : World) :
  IsConnected d w =
  match db d with
  | None => (false, w)
  | Some h =>
      (live w h && bool_decide (ping_err (server w) (trace w) h = None),
       {| environ := environ w; dotenv := dotenv w; server := server w;
          pools := pools w; trace := trace w ++ [EvPing h];
          logged := logged w |})
  end.
Proof.
  unfold IsConnected, live. destruct (db d) as [h|]; [| reflexivity].
  run_sql. destruct (sql.isOpen (pools w !! h)); run_M;
    [destruct (ping_err (server w) (trace w) h) |]; reflexivity.
Qed.

(** X9. [IsConnected] is a probe: it changes no pool, and it answers true
    exactly when the manager stores a handle, the pool behind it is open
    and the server answers the ping. *)
Theorem IsConnected_probe (d : PostgreSQLDriver) (w : World) :
  pools (IsConnected d w).2 = pools w
  /\ ((IsConnected d w).1 = true
      <-> exists h, db d = Some h /\ live w h = true
                    /\ ping_err (server w) (trace w) h = None).
Proof.
  rewrite IsConnected_run. destruct (db d) as [h|]; cbn [fst snd pools].
  - split; [reflexivity |]. rewrite andb_true_iff, bool_decide_eq_true. split.
    + intros [Hl Hp]. exists h. auto.
    + intros (h' & Hh & Hl & Hp). injection Hh as <-. auto.
  - split; [reflexivity |]. split; [discriminate |].
    intros (h & Hh & _). discriminate Hh.
Qed.

(** X10. Right after a [Connect] that returned no error, [IsConnected] is
    true exactly when the server answers the ping for the new pool. *)
Theorem IsConnected_after_Connect (d : PostgreSQLDriver) (w : World) :
  (Connect d w).1.2 = None ->
  let d' := (Connect d w).1.1 in
  let w' := (Connect d w).2 in
  (IsConnected d' w').1 = true
  <-> ping_err (server w') (trace w') (length (pools w)) = None.
Proof.
  intros Hok. cbv zeta.
  destruct (Connect_live d w) as [_ HC]. rewrite Hok in HC.
  destruct HC as [Hd Hl]. rewrite IsConnected_run, Hd. cbn [db fst].
  rewrite Hl, decide_True by reflexivity. cbn [andb].
  apply bool_decide_eq_true.
Qed.

Lemma IsConnected_after_Connect_witness :
  (IsConnected (Connect sample_driver (boot steady [])).1.1
     (Connect sample_driver (boot steady [])).2).1 = true.
Proof.
  apply (proj2 (IsConnected_after_Connect sample_driver (boot steady [])
                  ltac:(vm_compute; reflexivity))).
  vm_compute. reflexivity.
Defined.

Lemma setClosed_closed (p : Pool) : closed p = true -> sql.setClosed p = p.
Proof. destruct p as [s b mo mi ml]. cbn. now intros ->. Qed.

Lemma pools_sql_Close (h : Handle) (w : World) (k : Handle) :
  pools (sql.Close h w).2 !! k
  = if decide (k = h) then sql.setClosed <$> pools w !! k else pools w !! k.
Proof.
  rewrite sql_Close_run. cbn [snd pools]. unfold live.
  destruct (sql.isOpen (pools w !! h)) eqn:Hopen; case_decide as Hk; subst.
  - apply list_lookup_alter_eq.
  - apply list_lookup_alter_ne. congruence.
  - destruct (pools w !! h) as [p|]; [| reflexivity].
    cbn in Hopen |- *. apply negb_false_iff in Hopen.
    now rewrite setClosed_closed.
  - reflexivity.
Qed.

Lemma pools_Close (d : PostgreSQLDriver) (w : World) (k : Handle) :
  pools (Close d w).2 !! k
  = if decide (db d = Some k) then sql.setClosed <$> pools w !! k
    else pools w !! k.
Proof.
  rewrite Close_run. destruct (db d) as [h|]; cbv zeta.
  - assert (pools (sql.Close h w).2 !! k
            = if decide (Some h = Some k) then sql.setClosed <$> pools w !! k
              else pools w !! k) as E.
    { rewrite pools_sql_Close. repeat case_decide; congruence. }
    destruct (sql.Close h w).1; exact E.
  - case_decide; [discriminate | reflexivity].
Qed.

Lemma length_pools_Close (d : PostgreSQLDriver) (w : World) :
  length (pools (Close d w).2) = length (pools w).
Proof.
  rewrite Close_run. destruct (db d) as [h|]; [| reflexivity]. cbv zeta.
  destruct ((sql.Close h w).1); cbn [snd pools]; apply length_sql_Close.
Qed.

(** X11. [Close] changes one thing in the pools: the pool behind the
    stored handle becomes closed, with its connection string and limits
    kept. Every other pool, and the number of pools, stay as they were. *)
Theorem Close_only_stored_pool (d : PostgreSQLDriver) (w : World) :
  length (pools (Close d w).2) = length (pools w)
  /\ forall k,
       pools (Close d w).2 !! k
       = if decide (db d = Some k)
         then (fun p => {| dsn := dsn p; closed := true; maxOpen := maxOpen p;
                           maxIdleCount := maxIdleCount p;
                           maxLifetime := maxLifetime p |}) <$> pools w !! k
         else pools w !! k.
Proof.
  split; [apply length_pools_Close |]. intros k. apply pools_Close.
Qed.

(** X12. [Close] is idempotent: a second [Close] returns no error,
    whatever the server would report, and leaves every pool as the first
    one left it. *)
Theorem Close_twice (d : PostgreSQLDriver) (w : World) :
  let w1 := (Close d w).2 in
  (Close d w1).1 = None /\ pools (Close d w1).2 = pools w1.
Proof.
  cbv zeta. set (w1 := (Close d w).2).
  assert (holds_live d w1 = false) as Hdead.
  { unfold holds_live. destruct (db d) as [h|] eqn:Hdb; [| reflexivity].
    subst w1. rewrite live_Close. now rewrite decide_True. }
  rewrite (Close_run d w1). unfold holds_live in Hdead.
  destruct (db d) as [h|]; [| split; reflexivity]. cbv zeta.
  rewrite sql_Close_run, Hdead. cbn [fst snd pools]. split; reflexivity.
Qed.

(** X13. [Reconnect] closes the pool the manager held before, whether the
    new connection succeeds or not: the old handle is never left open. *)
Theorem Reconnect_closes_previous (d : PostgreSQLDriver) (w : World) (h : Handle) :
  db d = Some h -> (h < length (pools w))%nat ->
  live (Reconnect d w).2 h = false.
Proof.
  intros Hdb Hlt. destruct (Reconnect_live d w) as [_ HR].
  destruct ((Reconnect d w).1.2).
  - destruct HR as (_ & _ & Hl). rewrite Hl. now rewrite decide_True.
  - destruct HR as (_ & Hl). rewrite Hl.
    rewrite decide_False by lia. now rewrite decide_True.
Qed.

Lemma Reconnect_closes_previous_witness :
  live (Reconnect (connected_with steady).1 (connected_with steady).2).2 0%nat
  = false.
Proof.
  apply Reconnect_closes_previous; [reflexivity | vm_compute; lia].
Defined.

(** ** Invariants of call sequences *)

Lemma Connect_pools (d : PostgreSQLDriver) (w : World) :
  let cs := BuildConnectionString (config d) in
  match (Connect d w).1.2 with
  | None =>
      (Connect d w).1.1 = {| config := config d; db := Some (length (pools w)) |}
      /\ pools (Connect d w).2 = pools w ++ [configured cs false]
  | Some _ =>
      (Connect d w).1.1 = d
      /\ (pools (Connect d w).2 = pools w
          \/ pools (Connect d w).2 = pools w ++ [configured cs true])
  end.
Proof.
  cbv zeta. rewrite Connect_run. cbv zeta.
  destruct (open_err _ _ _) as [oe|]; cbn [fst snd pools]; [auto |].
  destruct (ping_err _ _ _) as [pe|]; cbn [fst snd pools]; auto.
Qed.

Lemma lookup_app_one {A} (l : list A) (x y : A) (k : nat) :
  (l ++ [x]) !! k = Some y -> l !! k = Some y \/ (k = length l /\ y = x).
Proof.
  intros H. destruct (decide (k < length l)%nat) as [Hlt | Hge].
  - left. now rewrite lookup_app_l in H.
  - right. rewrite lookup_app_r in H by lia.
    destruct (k - length l)%nat as [| m] eqn:E; cbn in H; [| discriminate H].
    split; [lia | congruence].
Qed.

Lemma Connect_managed (n : nat) (d : PostgreSQLDriver) (w : World) :
  managed n (config d) d w ->
  managed n (config d) (Connect d w).1.1 (Connect d w).2
  /\ (forall k, (k < n)%nat -> pools (Connect d w).2 !! k = pools w !! k).
Proof.
  intros (_ & Hn & Hh & Hp). pose proof (Connect_pools d w) as HC.
  cbv zeta in HC. unfold managed.
  destruct ((Connect d w).1.2).
  - destruct HC as [-> [-> | ->]].
    + split; [| auto]. split; [reflexivity |]. split; [exact Hn |].
      split; [exact Hh | exact Hp].
    + rewrite length_app. cbn [length]. split.
      * split; [reflexivity |]. split; [lia |]. split.
        -- intros h E. specialize (Hh h E). lia.
        -- intros k p Hk Hkp.
           apply lookup_app_one in Hkp as [Hkp | [_ ->]]; eauto.
      * intros k Hk. apply lookup_app_l. lia.
  - destruct HC as [-> ->].
    rewrite length_app. cbn [length config db]. split.
    + split; [reflexivity |]. split; [lia |]. split.
      * intros h E. injection E as <-. lia.
      * intros k p Hk Hkp.
        apply lookup_app_one in Hkp as [Hkp | [_ ->]]; eauto.
    + intros k Hk. apply lookup_app_l. lia.
Qed.

Lemma managed_closed (n : nat) (c : DatabaseConfig) (d : PostgreSQLDriver)
    (w w1 : World) :
  managed n c d w ->
  length (pools w1) = length (pools w) ->
  (forall k, pools w1 !! k
             = if decide (db d = Some k) then sql.setClosed <$> pools w !! k
               else pools w !! k) ->
  managed n c d w1 /\ (forall k, (k < n)%nat -> pools w1 !! k = pools w !! k).
Proof.
  intros (Hc & Hn & Hh & Hp) Hlen Hk. unfold managed. rewrite Hlen.
  split; [split; [exact Hc |]; split; [exact Hn |]; split; [exact Hh |] |].
  - intros k p Hnk. rewrite Hk. case_decide as E; [| now apply Hp].
    unfold Handle in *.
    destruct (pools w !! k) as [q|] eqn:Hq; cbn [fmap option_fmap option_map];
      [| discriminate].
    intros [= <-]. destruct (Hp k q Hnk Hq) as [b ->]. now exists true.
  - intros k Hlt. rewrite Hk. case_decide as E; [| reflexivity].
    apply Hh in E. lia.
Qed.

Lemma call_managed (n : nat) (o : Op) (d : PostgreSQLDriver) (w : World) :
  managed n (config d) d w ->
  managed n (config d) (call o d w).1.1 (call o d w).2
  /\ (forall k, (k < n)%nat -> pools (call o d w).2 !! k = pools w !! k).
Proof.
  intros Hm. rewrite call_run. destruct o; cbn [fst snd]; auto.
  - now apply Connect_managed.
  - rewrite pools_IsConnected. split; [| auto].
    destruct Hm as (Hc & Hn & Hh & Hp). unfold managed.
    rewrite pools_IsConnected. auto.
  - rewrite Reconnect_unfold. unfold Reconnect_composed.
    set (w1 := match db d with Some h => (sql.Close h w).2 | None => w end).
    assert (managed n (config d) d w1
            /\ forall k, (k < n)%nat -> pools w1 !! k = pools w !! k) as [Hm1 Hf1].
    { subst w1. destruct (db d) as [h|] eqn:Hdb; [| auto].
      apply managed_closed; [exact Hm | apply length_sql_Close |].
      intros k. rewrite pools_sql_Close, Hdb.
      repeat case_decide; congruence. }
    destruct (Connect_managed n d w1 Hm1) as [Hm2 Hf2].
    split; [exact Hm2 |]. intros k Hk. rewrite Hf2 by exact Hk. now apply Hf1.
  - apply managed_closed; [exact Hm | apply length_pools_Close |].
    apply pools_Close.
  - rewrite pools_GetConnectionStats. split; [| auto].
    destruct Hm as (Hc & Hn & Hh & Hp). unfold managed.
    rewrite pools_GetConnectionStats. auto.
Qed.

Lemma calls_managed (n : nat) (ops : list Op) (d : PostgreSQLDriver) (w : World) :
  managed n (config d) d w ->
  managed n (config d) (calls ops d w).1.1 (calls ops d w).2
  /\ (forall k, (k < n)%nat -> pools (calls ops d w).2 !! k = pools w !! k).
Proof.
  revert d w. induction ops as [| o rest IH]; intros d w Hm; [auto |].
  rewrite calls_cons. cbv zeta. cbn [fst snd].
  destruct (call_managed n o d w Hm) as [Hm1 Hf1].
  pose proof Hm1 as (Hc & _).
  rewrite <- Hc in Hm1. destruct (IH _ _ Hm1) as [Hm2 Hf2].
  rewrite Hc in Hm2. split; [exact Hm2 |].
  intros k Hk. rewrite Hf2 by exact Hk. now apply Hf1.
Qed.

Lemma fresh_managed (d : PostgreSQLDriver) (w : World) :
  db d = None -> managed (length (pools w)) (config d) d w.
Proof.
  intros Hdb. unfold managed. rewrite Hdb.
  split; [reflexivity |]. split; [lia |]. split; [discriminate |].
  intros k p Hk Hkp. apply lookup_lt_Some in Hkp. lia.
Qed.

Lemma call_config (o : Op) (d : PostgreSQLDriver) (w : World) :
  config (call o d w).1.1 = config d.
Proof.
  rewrite call_run. destruct o; cbn [fst snd]; try reflexivity.
  - destruct (Connect_live d w) as [_ HC].
    destruct ((Connect d w).1.2); [destruct HC as (_ & -> & _) | destruct HC as [-> _]];
      reflexivity.
  - destruct (Reconnect_live d w) as [_ HC].
    destruct ((Reconnect d w).1.2); [destruct HC as (_ & -> & _) | destruct HC as [-> _]];
      reflexivity.
Qed.

(** X14. No sequence of calls changes the config a manager holds:
    [GetConfig] returns at the end what it returned at the start. *)
Theorem GetConfig_invariant (ops : list Op) (d : PostgreSQLDriver) (w : World) :
  GetConfig (calls ops d w).1.1 = GetConfig d.
Proof.
  unfold GetConfig. revert d w. induction ops as [| o rest IH]; intros d w.
  - reflexivity.
  - rewrite calls_cons. cbv zeta. cbn [fst snd]. rewrite IH. apply call_config.
Qed.

(** X15. Every pool a manager opens, in any sequence of calls, is opened
    for the connection string of its config and carries the limits 25
    open connections, 5 idle connections and a lifetime of 5 minutes,
    until the end of the sequence. *)
Theorem pools_keep_limits (ops : list Op) (d0 : PostgreSQLDriver) (w : World)
    (k : nat) (p : Pool) :
  db d0 = None ->
  (length (pools w) <= k)%nat ->
  pools (calls ops d0 w).2 !! k = Some p ->
  dsn p = BuildConnectionString (config d0)
  /\ maxOpen p = 25 /\ maxIdleCount p = 5 /\ maxLifetime p = 5 * time.Minute.
Proof.
  intros Hdb Hk Hp.
  destruct (calls_managed _ ops d0 w (fresh_managed d0 w Hdb))
    as [(_ & _ & _ & Hpools) _].
  destruct (Hpools k p Hk Hp) as [b ->]. repeat split.
Qed.

Lemma pools_keep_limits_witness :
  let p := configured (BuildConnectionString sample_config) false in
  dsn p = BuildConnectionString sample_config
  /\ maxOpen p = 25 /\ maxIdleCount p = 5 /\ maxLifetime p = 5 * time.Minute.
Proof.
  apply (pools_keep_limits [OpConnect] sample_driver (boot steady []) 0%nat);
    [reflexivity | cbn; lia | vm_compute; reflexivity].
Defined.

(** X16. After any sequence of calls on a manager that started without a
    handle, the handle [GetDB] returns, if any, is a pool this manager
    opened: it exists, and it is none of the pools that were there before. *)
Theorem GetDB_own_pool (ops : list Op) (d0 : PostgreSQLDriver) (w : World)
    (h : Handle) :
  db d0 = None ->
  GetDB (calls ops d0 w).1.1 = Some h ->
  (length (pools w) <= h < length (pools (calls ops d0 w).2))%nat.
Proof.
  intros Hdb Hh.
  destruct (calls_managed _ ops d0 w (fresh_managed d0 w Hdb))
    as [(_ & _ & Hvalid & _) _].
  now apply Hvalid.
Qed.

Lemma GetDB_own_pool_witness :
  (0 <= 1 < length (pools (calls [OpConnect; OpReconnect] sample_driver
                             (boot steady [])).2))%nat.
Proof.
  apply (GetDB_own_pool [OpConnect; OpReconnect] sample_driver (boot steady []));
    vm_compute; reflexivity.
Defined.

(** X17. After any sequence of calls on a manager that started without a
    handle, if the manager holds a handle then [GetConnectionStats]
    reports a ceiling of 25 open connections. *)
Theorem GetConnectionStats_ceiling (ops : list Op) (d0 : PostgreSQLDriver)
    (w : World) (h : Handle) :
  db d0 = None ->
  GetDB (calls ops d0 w).1.1 = Some h ->
  MaxOpenConnections
    (GetConnectionStats (calls ops d0 w).1.1 (calls ops d0 w).2).1 = 25.
Proof.
  intros Hdb Hh.
  destruct (calls_managed _ ops d0 w (fresh_managed d0 w Hdb))
    as [(_ & _ & Hvalid & Hpools) _].
  unfold GetDB in Hh. unfold GetConnectionStats. rewrite Hh.
  destruct (Hvalid h Hh) as [Hge Hlt].
  destruct (lookup_lt_is_Some_2 _ _ Hlt) as [p Hp].
  destruct (Hpools h p Hge Hp) as [b ->].
  unfold sql.Stats. run_M. unfold Handle in *. rewrite Hp. reflexivity.
Qed.

Lemma GetConnectionStats_ceiling_witness :
  MaxOpenConnections
    (GetConnectionStats (calls [OpConnect] sample_driver (boot steady [])).1.1
       (calls [OpConnect] sample_driver (boot steady [])).2).1
  = 25.
Proof.
  apply (GetConnectionStats_ceiling [OpConnect] sample_driver (boot steady [])
           0%nat); vm_compute; reflexivity.
Defined.

(** X18. A manager never touches a pool it did not open: after any
    sequence of calls on a manager that started without a handle, every
    pool that existed before is exactly as it was. *)
Theorem foreign_pools_untouched (ops : list Op) (d0 : PostgreSQLDriver)
    (w : World) (k : nat) :
  db d0 = None ->
  (k < length (pools w))%nat ->
  pools (calls ops d0 w).2 !! k = pools w !! k.
Proof.
  intros Hdb Hk.
  destruct (calls_managed _ ops d0 w (fresh_managed d0 w Hdb)) as [_ Hf].
  now apply Hf.
Qed.

Lemma foreign_pools_untouched_witness :
  pools (calls [OpReconnect; OpClose; OpConnect] sample_driver
           (connected_with steady).2).2 !! 0%nat
  = pools (connected_with steady).2 !! 0%nat.
Proof.
  apply foreign_pools_untouched; [reflexivity | vm_compute; lia].
Defined.

Lemma call_pool_count (o : Op) (d : PostgreSQLDriver) (w : World) :
  (length (pools w) <= length (pools (call o d w).2)
   <= length (pools w) + (if opens_pool o then 1 else 0))%nat.
Proof.
  assert (forall d w, length (pools w) <= length (pools (Connect d w).2)
                      <= length (pools w) + 1)%nat as HC.
  { intros d1 w1. pose proof (Connect_pools d1 w1) as H. cbv zeta in H.
    destruct ((Connect d1 w1).1.2).
    - destruct H as [_ [-> | ->]]; [lia |]. rewrite length_app. cbn [length]. lia.
    - destruct H as [_ ->]. rewrite length_app. cbn [length]. lia. }
  rewrite call_run. destruct o; cbn [fst snd opens_pool]; try lia.
  - apply HC.
  - rewrite pools_IsConnected. lia.
  - rewrite Reconnect_unfold. unfold Reconnect_composed.
    destruct (db d) as [h|]; [| apply HC].
    rewrite <- (length_sql_Close h w). apply HC.
  - rewrite length_pools_Close. lia.
  - rewrite pools_GetConnectionStats. lia.
Qed.

(** X19. Only [Connect] and [Reconnect] open pools, one at most per call:
    a sequence of calls never removes a pool and opens no more pools than
    it has [Connect] and [Reconnect] calls. *)
Theorem pools_opened_bound (ops : list Op) (d : PostgreSQLDriver) (w : World) :
  (length (pools w) <= length (pools (calls ops d w).2)
   <= length (pools w) + connect_calls ops)%nat.
Proof.
  revert d w. induction ops as [| o rest IH]; intros d w.
  - cbn. lia.
  - rewrite calls_cons. cbv zeta. cbn [fst snd].
    pose proof (call_pool_count o d w) as H1.
    pose proof (IH (call o d w).1.1 (call o d w).2) as H2.
    unfold connect_calls in *. cbn [List.filter].
    destruct (opens_pool o); cbn [length]; lia.
Qed.

Lemma call_failed_attempt (o : Op) (d : PostgreSQLDriver) (w : World) :
  db d = None ->
  connected o (call o d w).1.2 = false ->
  db (call o d w).1.1 = None
  /\ forall k, live (call o d w).2 k = live w k.
Proof.
  intros Hdb. rewrite call_run. destruct o; cbn [fst snd connected]; auto.
  - destruct (Connect_live d w) as [_ HC].
    destruct ((Connect d w).1.2); [| discriminate].
    destruct HC as (_ & -> & Hl). auto.
  - intros _. split; [exact Hdb |]. intros k. unfold live.
    now rewrite pools_IsConnected.
  - destruct (Reconnect_live d w) as [_ HC].
    destruct ((Reconnect d w).1.2); [| discriminate].
    destruct HC as (_ & -> & Hl). intros _. split; [exact Hdb |].
    intros k. rewrite Hl, Hdb. now rewrite decide_False.
  - intros _. split; [exact Hdb |]. intros k. rewrite live_Close, Hdb.
    now rewrite decide_False.
  - intros _. split; [exact Hdb |]. intros k. unfold live.
    now rewrite pools_GetConnectionStats.
Qed.

(** X20. Failed attempts leave nothing behind: after any sequence of calls
    on a manager without a handle in which no [Connect] or [Reconnect]
    returned [nil], exactly the pools that were open before are open. *)
Theorem failed_attempts_leave_no_pool (ops : list Op) (d0 : PostgreSQLDriver)
    (w : World) :
  db d0 = None ->
  ever_connected ops (calls ops d0 w).1.2 = false ->
  forall k, live (calls ops d0 w).2 k = live w k.
Proof.
  revert d0 w. induction ops as [| o rest IH]; intros d w Hdb Hnever k.
  - reflexivity.
  - rewrite calls_cons in *. cbv zeta in *. cbn [fst snd] in *.
    unfold ever_connected in Hnever. cbn [zip zip_with existsb fst snd] in Hnever.
    apply orb_false_elim in Hnever as [Hnow Hlater].
    destruct (call_failed_attempt o d w Hdb Hnow) as [Hdb1 Hl1].
    rewrite (IH _ _ Hdb1 Hlater). apply Hl1.
Qed.

Lemma failed_attempts_leave_no_pool_witness :
  live (calls [OpConnect; OpConnect; OpReconnect; OpConnect] sample_driver
          (boot down [])).2 2%nat
  = live (boot down []) 2%nat.
Proof.
  apply failed_attempts_leave_no_pool; vm_compute; reflexivity.
Defined.

(** ** The example callers *)

Lemma bind_run {A B} (m : M A) (f : A -> M B) (w : World) :
  (m ≫= f) w = f (m w).1 (m w).2.
Proof. unfold mbind, M_bind. destruct (m w). reflexivity. Qed.

Lemma live_same_pools (w1 w2 : World) (k : Handle) :
  pools w1 = pools w2 -> live w1 k = live w2 k.
Proof. unfold live. now intros ->. Qed.

Lemma pools_Println (line : string) (w : World) :
  pools (log.Println line w).2 = pools w.
Proof. reflexivity. Qed.

Lemma pools_Printf (format : string) (args : list arg) (w : World) :
  pools (log.Printf format args w).2 = pools w.
Proof. reflexivity. Qed.

Lemma pools_NewPostgreSQLDriver (w : World) :
  pools (NewPostgreSQLDriver w).2 = pools w.
Proof.
  rewrite NewPostgreSQLDriver_run. cbn [snd].
  now rewrite LoadDatabaseConfig_world.
Qed.

Lemma NewPostgreSQLDriver_db (w : World) (d : PostgreSQLDriver) :
  (NewPostgreSQLDriver w).1 = inl d -> db d = None.
Proof. intros H. apply fresh_manager_db. right. now exists w. Qed.

Lemma live_fresh_pool (w : World) (d : PostgreSQLDriver) (k : Handle) :
  db d = None ->
  live (Close (Connect d w).1.1 (Connect d w).2).2 k = live w k.
Proof.
  intros Hdb. rewrite live_Close.
  destruct (Connect_live d w) as [_ HC].
  destruct ((Connect d w).1.2).
  - destruct HC as (_ & -> & Hl). rewrite Hdb, Hl. now rewrite decide_False.
  - destruct HC as (-> & Hl). cbn [db]. rewrite Hl.
    destruct (decide (k = length (pools w))) as [-> | Hne].
    + rewrite decide_True by reflexivity. now rewrite live_out_of_range.
    + rewrite decide_False by congruence. reflexivity.
Qed.

(** X21. [ExampleUsage] releases what it opens: in every world, whatever
    the loader and the server answer, the pools that are open when it
    returns are exactly the pools that were open before. *)
Theorem ExampleUsage_releases (w : World) (k : Handle) :
  live (ExampleUsage w).2 k = live w k.
Proof.
  unfold ExampleUsage. rewrite bind_run.
  pose proof (pools_NewPostgreSQLDriver w) as Hp0.
  pose proof (NewPostgreSQLDriver_db w) as Hdb.
  destruct (NewPostgreSQLDriver w) as [[d | err] w1]; cbn [fst snd] in *.
  2:{ rewrite (live_same_pools _ w1) by apply pools_Printf.
      now apply live_same_pools. }
  specialize (Hdb d eq_refl).
  rewrite bind_run.
  pose proof (live_fresh_pool w1 d k Hdb) as Hfresh.
  destruct (Connect_live d w1) as [_ HC].
  destruct (Connect d w1) as [[d' [e|]] w2]; cbn [fst snd] in *.
  - destruct HC as (_ & _ & Hl).
    rewrite (live_same_pools _ w2) by apply pools_Printf.
    rewrite Hl. now apply live_same_pools.
  - rewrite !bind_run. unfold mret at 1, M_ret at 1. cbn [snd].
    rewrite live_Close in Hfresh |- *.
    case_decide as E; [rewrite Hfresh; now apply live_same_pools |].
    rewrite <- (live_same_pools w1 w k Hp0), <- Hfresh.
    apply live_same_pools.
    rewrite pools_Printf, pools_GetConnectionStats.
    destruct (GetDB d'); destruct ((IsConnected d' w2).1);
      cbv beta iota; unfold mret, M_ret; cbn [snd];
      rewrite ?pools_Println; apply pools_IsConnected.
Qed.

(** X22. [ExampleReconnection] releases what it opens on every path, also
    when it returns early after a failed [Reconnect] without a last
    [Close]: the pools that are open when it returns are exactly the pools
    that were open before. *)
Theorem ExampleReconnection_releases (w : World) (k : Handle) :
  live (ExampleReconnection w).2 k = live w k.
Proof.
  unfold ExampleReconnection. rewrite bind_run.
  pose proof (pools_NewPostgreSQLDriver w) as Hp0.
  pose proof (NewPostgreSQLDriver_db w) as Hdb.
  destruct (NewPostgreSQLDriver w) as [[d | err] w1]; cbn [fst snd] in *.
  2:{ rewrite (live_same_pools _ w1) by apply pools_Printf.
      now apply live_same_pools. }
  specialize (Hdb d eq_refl).
  rewrite <- (live_same_pools w1 w k Hp0).
  assert (forall j, (length (pools w1) <= j)%nat -> live w1 j = false) as Hout
    by (intros j; apply live_out_of_range).
  clear Hp0 w. rewrite bind_run.
  destruct (Connect_live d w1) as [Hlen2 HC].
  destruct (Connect d w1) as [[d' [e|]] w2]; cbn [fst snd] in *.
  - destruct HC as (_ & _ & Hl).
    rewrite (live_same_pools _ w2) by apply pools_Printf. apply Hl.
  - destruct HC as [Hd' Hl2]. rewrite !bind_run.
    match goal with |- context [Reconnect d' ?W] => set (W3 := W) end.
    assert (forall j, live W3 j
                      = if decide (db d' = Some j) then false else live w2 j)
      as Hl3.
    { intros j. subst W3. rewrite (live_same_pools _ _ j (pools_Println _ _)).
      rewrite live_Close. case_decide; [reflexivity |].
      apply live_same_pools, pools_Println. }
    assert (length (pools W3) = length (pools w2)) as Hlen3.
    { subst W3. rewrite pools_Println, length_pools_Close.
      now rewrite pools_Println. }
    clearbody W3.
    destruct (Reconnect_live d' W3) as [_ HR].
    destruct (Reconnect d' W3) as [[d'' [e|]] w4]; cbn [fst snd] in *.
    + destruct HR as (_ & _ & Hl4).
      rewrite (live_same_pools _ w4) by apply pools_Printf.
      rewrite Hl4, Hl3, Hl2, Hd'. cbn [db].
      destruct (decide (k = length (pools w1))) as [-> | Hne].
      * rewrite !decide_True by reflexivity. symmetry. apply Hout. lia.
      * rewrite !decide_False by congruence. reflexivity.
    + destruct HR as [Hd'' Hl4]. rewrite !bind_run.
      unfold mret at 1, M_ret at 1. cbn [snd].
      rewrite live_Close.
      rewrite (live_same_pools _ w4 k (pools_Println _ _)).
      rewrite Hl4, Hl3, Hl2, Hd'', Hd'. cbn [db].
      repeat case_decide; simplify_eq; try congruence; try reflexivity;
        symmetry; apply Hout; lia.
Qed.

(** ** The connection string determines the config *)

Lemma append_cons (c : ascii) (a r : string) :
  String c a +:+ r = String c (a +:+ r).
Proof. reflexivity. Qed.

Lemma append_inv_head (p x y : string) : p +:+ x = p +:+ y -> x = y.
Proof.
  induction p as [| c p IH]; [auto |].
  rewrite !append_cons. intros H. injection H as H. auto.
Qed.

Lemma split_at_space (a b r1 r2 : string) :
  spaceless a = true -> spaceless b = true ->
  a +:+ String " " r1 = b +:+ String " " r2 -> a = b /\ r1 = r2.
Proof.
  revert b. induction a as [| c a IH]; intros [| c' b] Ha Hb H.
  - injection H as H. auto.
  - rewrite append_cons in H. injection H as Hc _. subst c'.
    cbn in Hb. discriminate Hb.
  - rewrite append_cons in H. injection H as Hc _. subst c.
    cbn in Ha. discriminate Ha.
  - rewrite !append_cons in H. injection H as Hc H. subst c'.
    cbn in Ha, Hb. apply andb_prop in Ha as [_ Ha]. apply andb_prop in Hb as [_ Hb].
    destruct (IH b Ha Hb H) as [-> ->]. auto.
Qed.

Lemma spaceless_uint (d : Decimal.uint) :
  spaceless (NilEmpty.string_of_uint d) = true.
Proof. induction d; cbn; auto. Qed.

Lemma spaceless_Itoa (n : Z) : spaceless (Itoa n) = true.
Proof.
  unfold Itoa. destruct (Z.to_int n) as [d | d]; cbn [NilZero.string_of_int].
  - destruct d; try reflexivity; apply (spaceless_uint (_ _)).
  - cbn [spaceless]. destruct d; try reflexivity; apply (spaceless_uint (_ _)).
Qed.

Lemma Itoa_inj (a b : Z) : Itoa a = Itoa b -> a = b.
Proof.
  unfold Itoa. intros H.
  assert (forall z, NilZero.int_of_string (NilZero.string_of_int (Z.to_int z))
                    = Some (Z.to_int z)) as Hisi.
  { intros z. apply NilZero.isi; destruct z; cbn; try discriminate;
      intros E; injection E as E; now apply Unsigned.to_uint_nonnil in E. }
  pose proof (Hisi a) as Ha. rewrite H, Hisi in Ha. injection Ha as Ha.
  rewrite <- (DecimalZ.of_to a), <- (DecimalZ.of_to b). now rewrite Ha.
Qed.

Lemma BuildConnectionString_fields (c : DatabaseConfig) :
  BuildConnectionString c
  = "host=" +:+ (Host c +:+ String " " ("port=" +:+ (Itoa (Port c) +:+
      String " " ("user=" +:+ (User c +:+ String " " ("password=" +:+
        (Password c +:+ String " " ("dbname=" +:+ (Database c +:+
          String " " ("sslmode=" +:+ SSLMode c)))))))))).
Proof.
  unfold BuildConnectionString. sprintf.
  cbn [fmt.verb fmt.Sprintf].
  rewrite !bool_decide_eq_true_2 by (left; reflexivity).
  rewrite append_nil_r. reflexivity.
Qed.

(** X23. Two configs whose host, user, password and database contain no
    space have the same connection string only if they are the same
    config: nothing is lost or confused in the string. *)
Theorem BuildConnectionString_inj (c1 c2 : DatabaseConfig) :
  spaceless (Host c1) = true -> spaceless (Host c2) = true ->
  spaceless (User c1) = true -> spaceless (User c2) = true ->
  spaceless (Password c1) = true -> spaceless (Password c2) = true ->
  spaceless (Database c1) = true -> spaceless (Database c2) = true ->
  BuildConnectionString c1 = BuildConnectionString c2 ->
  c1 = c2.
Proof.
  intros Hh1 Hh2 Hu1 Hu2 Hp1 Hp2 Hd1 Hd2 H.
  rewrite !BuildConnectionString_fields in H.
  apply append_inv_head in H.
  apply split_at_space in H as [Eh H]; [| assumption ..].
  apply append_inv_head in H.
  apply split_at_space in H as [Ep H]; [| apply spaceless_Itoa ..].
  apply Itoa_inj in Ep.
  apply append_inv_head in H.
  apply split_at_space in H as [Eu H]; [| assumption ..].
  apply append_inv_head in H.
  apply split_at_space in H as [Epw H]; [| assumption ..].
  apply append_inv_head in H.
  apply split_at_space in H as [Ed H]; [| assumption ..].
  apply append_inv_head in H.
  destruct c1, c2. cbn in *. congruence.
Qed.

Lemma BuildConnectionString_inj_witness : sample_config = sample_config.
Proof.
  apply BuildConnectionString_inj; reflexivity.
Defined.

(** Without the condition the string is ambiguous: a space inside the
    password moves the border between password and database. *)
Example BuildConnectionString_collision :
  let c1 := {| Host := "h"; Port := 1; User := "u"; Password := "b dbname=c";
               Database := "d"; SSLMode := "require" |} in
  let c2 := {| Host := "h"; Port := 1; User := "u"; Password := "b";
               Database := "c dbname=d"; SSLMode := "require" |} in
  BuildConnectionString c1 = BuildConnectionString c2 /\ c1 <> c2.
Proof.
  cbv zeta. split; [vm_compute; reflexivity |].
  intros H. apply (f_equal Database) in H. discriminate H.
Qed.
